(** * JAAS dashboard: status rollup, grouping, filtering, logout and polling

    A shallow embedding of the status aggregation engine of the dashboard
    and of the properties its specification states about it:
    - the status classifiers, the rollup [getModelStatusGroupData] and the
      tag helpers of [src/app/utils.js];
    - the selectors [groupModelsByStatus], [countModelStatusGroups] and
      [filterModelData];
    - the collection of the available filters in [FilterTags];
    - the root reducer [rootReducer];
    - the job that [fetchAllModelStatuses] pushes on its queue for each
      model, with [fetchAndStoreModelStatus].

    Conventions of the embedding.
    - A JavaScript object that is enumerated ([Object.keys], [for .. in],
      [Object.entries]) is an association list in enumeration order.
    - A JavaScript string is a [string]; every separator and pattern of the
      source is ASCII, so the unit of a string (a byte here, a UTF-16 code
      unit there) plays no role.
    - A call that can raise a [TypeError] returns a [Completion]. *)

From Stdlib Require Import String Ascii List ZArith Bool Lia.
From stdpp Require Import gmap strings.
Import ListNotations.

Open Scope string_scope.

(** ** JavaScript primitives used by the source *)

Module JS.

(** The outcome of evaluating an expression: a value, or an abrupt
    completion with a [TypeError] (the only exception the modelled code
    can raise). *)
Inductive Completion (A : Type) : Type :=
| Normal (a : A)
| Throw.
Arguments Normal {A} a.
Arguments Throw {A}.

Definition bind {A B : Type} (c : Completion A) (k : A -> Completion B)
  : Completion B :=
  match c with
  | Normal a => k a
  | Throw => Throw
  end.

(** [Array.prototype.forEach] with a callback that may throw and that
    updates the variables it closes over (threaded as [acc]). *)
Fixpoint forEachM {A S : Type} (f : S -> A -> Completion S) (l : list A)
  (acc : S) : Completion S :=
  match l with
  | [] => Normal acc
  | x :: rest => bind (f acc x) (forEachM f rest)
  end.

(** [Array.prototype.some] with a callback that may throw: stops at the
    first element for which the callback returns true. *)
Fixpoint someM {A : Type} (f : A -> Completion bool) (l : list A)
  : Completion bool :=
  match l with
  | [] => Normal false
  | x :: rest =>
      bind (f x) (fun b => if b then Normal true else someM f rest)
  end.

(** The characters of [s] from position [n] on. *)
Fixpoint dropChars (n : nat) (s : string) : string :=
  match n, s with
  | O, _ => s
  | S _, EmptyString => EmptyString
  | S k, String _ rest => dropChars k rest
  end.

(** [s.includes(pat)]: [pat] occurs somewhere in [s]. *)
Fixpoint includes (pat s : string) : bool :=
  match s with
  | EmptyString => String.prefix pat s
  | String _ rest => String.prefix pat s || includes pat rest
  end.

(** The pieces of [s] between the occurrences of a non-empty [sep], read
    left to right; [skip] counts the characters of a separator that was
    just matched and is still to be passed over. *)
Fixpoint splitFrom (sep : string) (skip : nat) (s : string) : list string :=
  match s with
  | EmptyString => [EmptyString]
  | String c rest =>
      match skip with
      | S k => splitFrom sep k rest
      | O =>
          if String.prefix sep s
          then EmptyString :: splitFrom sep (String.length sep - 1) rest
          else match splitFrom sep 0 rest with
               | piece :: pieces => String c piece :: pieces
               | [] => [String c EmptyString]
               end
      end
  end.

(** [s.split(sep)]. With the empty separator JavaScript returns the
    characters of [s]. *)
Definition split (sep s : string) : list string :=
  match sep with
  | EmptyString =>
      List.map (fun c => String c EmptyString) (list_ascii_of_string s)
  | String _ _ => splitFrom sep 0 s
  end.

(** [s.replace(pat, rep)] for a string pattern: only the first
    occurrence is replaced ([rep] holds no [$] in the source). *)
Fixpoint replace (pat rep s : string) : string :=
  if String.prefix pat s
  then rep ++ dropChars (String.length pat) s
  else match s with
       | EmptyString => EmptyString
       | String c rest => String c (replace pat rep rest)
       end.

(** [arr.indexOf(x)] on an array of strings: -1 when [x] is absent. *)
Fixpoint indexOfFrom (x : string) (arr : list string) (i : Z) : Z :=
  match arr with
  | [] => (-1)%Z
  | y :: rest => if String.eqb y x then i else indexOfFrom x rest (i + 1)%Z
  end.

Definition indexOf (arr : list string) (x : string) : Z :=
  indexOfFrom x arr 0%Z.

(** [arr.includes(x)] on an array of strings. *)
Definition arrayIncludes (arr : list string) (x : string) : bool :=
  List.existsb (String.eqb x) arr.

(** Equality of two values that are each a string or [undefined]. *)
Definition sameValue (x y : option string) : bool :=
  match x, y with
  | Some a, Some b => String.eqb a b
  | None, None => true
  | _, _ => false
  end.

(** [arr.includes(x)] where the elements and [x] may be [undefined]. *)
Definition valuesInclude (arr : list (option string)) (x : option string)
  : bool :=
  List.existsb (sameValue x) arr.

End JS.

Import JS.

(** ** The stored model data ([state.juju.modelData]) *)

(** [{status, info}]: the status of an application, or the agent status of
    a unit. *)
Record DetailedStatus : Type := {
  status : string;
  info : string
}.

Record Unit : Type := {
  agentStatus : DetailedStatus
}.

(** An application; [appStatus] is its field [status] and [units] its units
    in [Object.keys] order. *)
Record Application : Type := {
  appStatus : DetailedStatus;
  units : list (string * Unit)
}.

(** [data.model] of a full status. *)
Module StatusModel.
Record t : Type := {
  cloudTag : string;
  region : string
}.
End StatusModel.

(** [data.info], the model info record; absent until it has been fetched. *)
Module Info.
Record t : Type := {
  ownerTag : string;
  cloudTag : string;
  cloudRegion : string;
  cloudCredentialTag : string
}.
End Info.

(** One entry of the model data; [modelInfo] is its optional field [info]
    and [applications] its applications in [Object.keys] order. *)
Record ModelData : Type := {
  model : StatusModel.t;
  modelInfo : option Info.t;
  applications : list (string * Application)
}.

(** ** Status helpers and tag helpers ([src/app/utils.js]) *)

Module Utils.

(** Highest status to the right. *)
Definition statusOrder : list string := ["running"; "alert"; "blocked"].

Definition setHighestStatus (entityStatus highestStatus : string) : string :=
  if (indexOf statusOrder entityStatus >? indexOf statusOrder highestStatus)%Z
  then entityStatus
  else highestStatus.

(** [highestStatus === statusOrder[statusOrder.length - 1]]. *)
Definition checkHighestStatus (highestStatus : string) : bool :=
  match nth_error statusOrder (List.length statusOrder - 1) with
  | Some top => String.eqb highestStatus top
  | None => false
  end.

(** The response object of the three status classifiers. *)
Record StatusGroup : Type := {
  groupStatus : string;
  message : option string
}.

(** The shared body of the classifiers: the two [if]s run in sequence on
    the response object. *)
Definition classify (blocked alert : list string) (st : string)
  : StatusGroup :=
  let response := {| groupStatus := "running"; message := None |} in
  let response :=
    if arrayIncludes blocked st
    then {| groupStatus := "blocked"; message := message response |}
    else response in
  let response :=
    if arrayIncludes alert st
    then {| groupStatus := "alert"; message := message response |}
    else response in
  response.

Definition getApplicationStatusGroup (application : Application)
  : StatusGroup :=
  classify ["blocked"] ["unknown"] (status (appStatus application)).

Definition getUnitStatusGroup (unit : Unit) : StatusGroup :=
  classify ["lost"] ["allocating"] (status (agentStatus unit)).

(** The two variables the loops of [getModelStatusGroupData] update, and
    the object it returns. *)
Record StatusGroupData : Type := {
  highestStatus : string;
  messages : list string
}.

(** The callback of the inner [forEach]; its [return] ends this call of
    the callback only. *)
Definition unitCallback (acc : StatusGroupData) (entry : string * Unit)
  : StatusGroupData :=
  let unit := snd entry in
  let unitStatus := groupStatus (getUnitStatusGroup unit) in
  let highest := setHighestStatus unitStatus (highestStatus acc) in
  if checkHighestStatus highest
  then {| highestStatus := highest;
          messages := messages acc ++ [info (agentStatus unit)] |}
  else {| highestStatus := highest; messages := messages acc |}.

(** The callback of the outer [forEach]. *)
Definition appCallback (acc : StatusGroupData)
  (entry : string * Application) : StatusGroupData :=
  let app := snd entry in
  let appStatus' := groupStatus (getApplicationStatusGroup app) in
  let highest := setHighestStatus appStatus' (highestStatus acc) in
  if checkHighestStatus highest
  then {| highestStatus := highest;
          messages := messages acc ++ [info (appStatus app)] |}
  else List.fold_left unitCallback (units app)
         {| highestStatus := highest; messages := messages acc |}.

Definition getModelStatusGroupData (m : ModelData) : StatusGroupData :=
  let highestStatus0 := List.nth 0 statusOrder "" in
  List.fold_left appCallback (applications m)
    {| highestStatus := highestStatus0; messages := [] |}.

(** The first element of the array a [split] returns (never empty). *)
Definition first (pieces : list string) : string := List.hd "" pieces.

(** [arr[1].split(..)]: dereferencing [undefined] raises a [TypeError]. *)
Definition second (pieces : list string) : Completion string :=
  match nth_error pieces 1 with
  | Some piece => Normal piece
  | None => Throw
  end.

Definition extractOwnerName (tag : string) : string :=
  replace "user-" "" (first (split "@" tag)).

Definition extractCloudName (tag : string) : string :=
  replace "cloud-" "" tag.

(** The result is [None] when the last [split] has no second piece
    ([undefined] is returned, nothing is raised). *)
Definition extractCredentialName (tag : string)
  : Completion (option string) :=
  bind (second (split "cloudcred-" tag)) (fun afterPrefix =>
  bind (second (split "@" afterPrefix)) (fun afterAt =>
  Normal (nth_error (split "_" afterAt) 1))).

End Utils.

Import Utils.

(** The stored model data: [None] is [null], otherwise the entries in
    enumeration order. *)
Abbreviation ModelDataStore := (option (list (string * ModelData))).

(** ** Selectors: grouping ([src/app/selectors.js]) and filtering
       ([filterModelData], with the selectors in [src/app/root.js]) *)

Module Selectors.

Module Grouped.
Record t : Type := {
  blocked : list ModelData;
  alert : list ModelData;
  running : list ModelData
}.
End Grouped.

Module Counts.
Record t : Type := {
  blocked : nat;
  alert : nat;
  running : nat
}.
End Counts.

(** [grouped[key].push(model)]: any key other than the three own keys
    yields [undefined] or a value without [push], and the call throws. *)
Definition pushModel (grouped : Grouped.t) (key : string) (m : ModelData)
  : Completion Grouped.t :=
  if String.eqb key "blocked" then
    Normal {| Grouped.blocked := Grouped.blocked grouped ++ [m];
              Grouped.alert := Grouped.alert grouped;
              Grouped.running := Grouped.running grouped |}
  else if String.eqb key "alert" then
    Normal {| Grouped.blocked := Grouped.blocked grouped;
              Grouped.alert := Grouped.alert grouped ++ [m];
              Grouped.running := Grouped.running grouped |}
  else if String.eqb key "running" then
    Normal {| Grouped.blocked := Grouped.blocked grouped;
              Grouped.alert := Grouped.alert grouped;
              Grouped.running := Grouped.running grouped ++ [m] |}
  else Throw.

Definition groupCallback (grouped : Grouped.t) (entry : string * ModelData)
  : Completion Grouped.t :=
  let m := snd entry in
  pushModel grouped (highestStatus (getModelStatusGroupData m)) m.

Definition groupModelsByStatus (modelData : ModelDataStore)
  : Completion Grouped.t :=
  let grouped :=
    {| Grouped.blocked := []; Grouped.alert := []; Grouped.running := [] |} in
  match modelData with
  | None => Normal grouped
  | Some entries => forEachM groupCallback entries grouped
  end.

Definition countModelStatusGroups (groupedModelStatuses : Grouped.t)
  : Counts.t :=
  {| Counts.blocked := List.length (Grouped.blocked groupedModelStatuses);
     Counts.alert := List.length (Grouped.alert groupedModelStatuses);
     Counts.running := List.length (Grouped.running groupedModelStatuses) |}.

(** [filterSegments]: segment name to the values collected for it, in
    insertion order. A value is [None] when the filter holds no colon. *)
Abbreviation Segments := (list (string * list (option string))).

(** Names every object inherits from [Object.prototype]. Looked up on the
    fresh [filterSegments] object they yield a function (or the prototype
    itself), which is truthy and has no [push]. *)
Definition objectPrototypeKeys : list string :=
  ["constructor"; "__proto__"; "hasOwnProperty"; "isPrototypeOf";
   "propertyIsEnumerable"; "toLocaleString"; "toString"; "valueOf";
   "__defineGetter__"; "__defineSetter__"; "__lookupGetter__";
   "__lookupSetter__"].

(** [if (!segs[k]) segs[k] = []; segs[k].push(v)] for an own or new key. *)
Fixpoint pushValue (segment : string) (v : option string) (segs : Segments)
  : Segments :=
  match segs with
  | [] => [(segment, [v])]
  | (k, vs) :: rest =>
      if String.eqb k segment
      then (k, (vs ++ [v])%list) :: rest
      else (k, vs) :: pushValue segment v rest
  end.

(** The callback of [filters.forEach]. *)
Definition collectCallback (segs : Segments) (filter : string)
  : Completion Segments :=
  let values := split ":" filter in
  let segment := first values in
  if arrayIncludes objectPrototypeKeys segment
  then Throw
  else Normal (pushValue segment (nth_error values 1) segs).

(** The callback of [Object.entries(filterSegments).some]: true when the
    segment rules the model out. Segments other than the four of the
    [switch] fall through to [return false], so the place integer-like
    keys take in the enumeration is immaterial. *)
Definition segmentCallback (data : ModelData)
  (entry : string * list (option string)) : Completion bool :=
  let segment := fst entry in
  let values := snd entry in
  if String.eqb segment "cloud" then
    Normal (negb (valuesInclude values
      (Some (extractCloudName (StatusModel.cloudTag (model data))))))
  else if String.eqb segment "credential" then
    match modelInfo data with
    | Some i =>
        bind (extractCredentialName (Info.cloudCredentialTag i))
          (fun credential => Normal (negb (valuesInclude values credential)))
    | None => Normal false
    end
  else if String.eqb segment "region" then
    Normal (negb (valuesInclude values
      (Some (StatusModel.region (model data)))))
  else if String.eqb segment "owner" then
    match modelInfo data with
    | Some i =>
        Normal (negb (valuesInclude values
          (Some (extractOwnerName (Info.ownerTag i)))))
    | None => Normal false
    end
  else Normal false.

(** [delete obj[uuid]]. *)
Definition deleteKey (uuid : string) (obj : list (string * ModelData))
  : list (string * ModelData) :=
  List.filter (fun e => negb (String.eqb (fst e) uuid)) obj.

(** The callback of [Object.entries(clonedModelData).forEach]; [cloned]
    is the object the deletions act on. *)
Definition removeCallback (filterSegments : Segments)
  (cloned : list (string * ModelData)) (entry : string * ModelData)
  : Completion (list (string * ModelData)) :=
  bind (someM (segmentCallback (snd entry)) filterSegments) (fun remove =>
  Normal (if remove then deleteKey (fst entry) cloned else cloned)).

(** [filters] is [None] when falsy ([null], [undefined]); an empty array
    is truthy. [cloneDeep] is the identity on immutable values, and
    [Object.entries(null)] throws. *)
Definition filterModelData (filters : option (list string))
  (modelData : ModelDataStore) : Completion ModelDataStore :=
  match filters with
  | None => Normal modelData
  | Some fs =>
      bind (forEachM collectCallback fs []) (fun filterSegments =>
      match modelData with
      | None => Throw
      | Some clonedModelData =>
          bind (forEachM (removeCallback filterSegments) clonedModelData
                  clonedModelData)
            (fun result => Normal (Some result))
      end)
  end.

End Selectors.

(** ** The available filters ([src/components/FilterTags/FilterTags.js]) *)

Module FilterTags.

(** [filters]: filter type to the values seen so far. *)
Abbreviation Filters := (list (string * list (option string))).

(** [filters[type] = filters[type] || []; if (!filters[type].includes(value))
    filters[type].push(value)]. *)
Fixpoint addFilter (type : string) (value : option string)
  (filters : Filters) : Filters :=
  match filters with
  | [] => [(type, [value])]
  | (k, vs) :: rest =>
      if String.eqb k type
      then (k, if valuesInclude vs value then vs else (vs ++ [value])%list)
           :: rest
      else (k, vs) :: addFilter type value rest
  end.

(** The callback of [Object.values(modelData).forEach]. *)
Definition modelCallback (filters : Filters) (m : ModelData)
  : Completion Filters :=
  match modelInfo m with
  | None => Normal filters
  | Some i =>
      let cloudFilter := extractCloudName (Info.cloudTag i) in
      let filters := addFilter "cloud" (Some cloudFilter) filters in
      let regionFilter := Info.cloudRegion i in
      let filters := addFilter "region" (Some regionFilter) filters in
      let ownerFilter := extractOwnerName (Info.ownerTag i) in
      let filters := addFilter "owner" (Some ownerFilter) filters in
      bind (extractCredentialName (Info.cloudCredentialTag i))
        (fun credentialFilter =>
           Normal (addFilter "credential" credentialFilter filters))
  end.

Definition availableFilters (modelData : list (string * ModelData))
  : Completion Filters :=
  forEachM modelCallback (List.map snd modelData) [].

End FilterTags.

(** ** The root reducer ([rootReducer], [src/app/root.js]) *)

Module Root.

Section Reducer.

(** The parts of the state the reducer only stores: the controller
    connection, and what a bakery and its storage hold besides the
    macaroon store. *)
Variables (Connection BakeryRest StorageRest : Type).

(** [LocalMacaroonStore]: wraps the browser's local storage, a map from
    service name to stored macaroon. *)
Record LocalMacaroonStore : Type := {
  localStorage : gmap string string
}.

Record BakeryStorage : Type := {
  _store : LocalMacaroonStore;
  storageRest : StorageRest
}.

Record Bakery : Type := {
  storage : BakeryStorage;
  bakeryRest : BakeryRest
}.

(** [state.root]; a field is [None] while it is [undefined]. *)
Record State : Type := {
  controllerConnection : option Connection;
  bakery : option Bakery;
  visitURL : option string;
  modelStatusPolling : option bool;
  collapsibleSidebar : option bool
}.

(** The actions of [actionsList], each with its payload; [Other] is any
    action type the [switch] has no case for. *)
Inductive Action : Type :=
| UpdateControllerConnection (payload : option Connection)
| StoreBakery (payload : option Bakery)
| StoreVisitURL (payload : option string)
| LogOut
| ModelStatusPolling (payload : option bool)
| CollapsibleSidebar (payload : option bool)
| Other (type : string).

(** [delete draftState.bakery.storage._store.localStorage.identity]:
    reading [storage] of an absent bakery throws. *)
Definition deleteIdentity (b : Bakery) : Bakery :=
  {| storage :=
       {| _store :=
            {| localStorage :=
                 delete "identity" (localStorage (_store (storage b))) |};
          storageRest := storageRest (storage b) |};
     bakeryRest := bakeryRest b |}.

(** [produce(state, recipe)] returns the state the recipe leaves in the
    draft. *)
Definition rootReducer (state : State) (action : Action)
  : Completion State :=
  match action with
  | UpdateControllerConnection payload =>
      Normal {| controllerConnection := payload;
                bakery := bakery state;
                visitURL := visitURL state;
                modelStatusPolling := modelStatusPolling state;
                collapsibleSidebar := collapsibleSidebar state |}
  | StoreBakery payload =>
      Normal {| controllerConnection := controllerConnection state;
                bakery := payload;
                visitURL := visitURL state;
                modelStatusPolling := modelStatusPolling state;
                collapsibleSidebar := collapsibleSidebar state |}
  | StoreVisitURL payload =>
      Normal {| controllerConnection := controllerConnection state;
                bakery := bakery state;
                visitURL := payload;
                modelStatusPolling := modelStatusPolling state;
                collapsibleSidebar := collapsibleSidebar state |}
  | LogOut =>
      match bakery state with
      | None => Throw
      | Some b =>
          Normal {| controllerConnection := controllerConnection state;
                    bakery := Some (deleteIdentity b);
                    visitURL := visitURL state;
                    modelStatusPolling := modelStatusPolling state;
                    collapsibleSidebar := collapsibleSidebar state |}
      end
  | ModelStatusPolling payload =>
      Normal {| controllerConnection := controllerConnection state;
                bakery := bakery state;
                visitURL := visitURL state;
                modelStatusPolling := payload;
                collapsibleSidebar := collapsibleSidebar state |}
  | CollapsibleSidebar payload =>
      Normal {| controllerConnection := controllerConnection state;
                bakery := bakery state;
                visitURL := visitURL state;
                modelStatusPolling := modelStatusPolling state;
                collapsibleSidebar := payload |}
  | Other _ => Normal state
  end.

End Reducer.

Arguments _store {StorageRest} b.
Arguments storageRest {StorageRest} b.
Arguments Build_BakeryStorage {StorageRest} _store storageRest.
Arguments storage {BakeryRest StorageRest} b.
Arguments bakeryRest {BakeryRest StorageRest} b.
Arguments Build_Bakery {BakeryRest StorageRest} storage bakeryRest.
Arguments controllerConnection {Connection BakeryRest StorageRest} s.
Arguments bakery {Connection BakeryRest StorageRest} s.
Arguments visitURL {Connection BakeryRest StorageRest} s.
Arguments modelStatusPolling {Connection BakeryRest StorageRest} s.
Arguments collapsibleSidebar {Connection BakeryRest StorageRest} s.
Arguments Build_State {Connection BakeryRest StorageRest}.
Arguments UpdateControllerConnection {Connection BakeryRest StorageRest}.
Arguments StoreBakery {Connection BakeryRest StorageRest} payload.
Arguments StoreVisitURL {Connection BakeryRest StorageRest} payload.
Arguments LogOut {Connection BakeryRest StorageRest}.
Arguments ModelStatusPolling {Connection BakeryRest StorageRest} payload.
Arguments CollapsibleSidebar {Connection BakeryRest StorageRest} payload.
Arguments Other {Connection BakeryRest StorageRest} type.
Arguments deleteIdentity {BakeryRest StorageRest} b.
Arguments rootReducer {Connection BakeryRest StorageRest} state action.

End Root.

(** ** One job of the polling queue ([fetchAllModelStatuses] and
       [fetchAndStoreModelStatus] of the juju module, in
       [src/pages/Models/Details/ModelDetails.js]) *)

Module Juju.

Section Polling.

(** What the controller returns: a full model status, a model info. *)
Variables (FullStatus ModelInfo : Type).

(** The actions a job dispatches to the store. *)
Inductive Action : Type :=
| UpdateModelStatus (modelUUID : string) (status : FullStatus)
| UpdateModelInfo (modelInfo : ModelInfo).

(** An asynchronous job as the sequence of its interactions. The job
    suspends at the two network round trips only; between them it runs
    to the next one without interruption. *)
Inductive Task : Type :=
| Settled
  (** the job called [done()] *)
| Rejected
  (** an awaited promise rejected: the job ends without [done()] *)
| ContinuePolling (k : bool -> Task)
  (** [continueModelStatusPolling(reduxStore.getState())], read for
      its truthiness *)
| AwaitModelStatus (modelUUID : string) (k : option FullStatus -> Task)
  (** [await fetchModelStatus(modelUUID)]: [None] is the [null] it
      returns after a timeout *)
| AwaitModelInfo (modelUUID : string) (k : option ModelInfo -> Task)
  (** [await fetchModelInfo(conn, modelUUID)]: [None] is a rejection *)
| Dispatch (a : Action) (k : Task).

(** [fetchAndStoreModelStatus(modelUUID, dispatch)], followed by [k]. *)
Definition fetchAndStoreModelStatus (modelUUID : string) (k : Task)
  : Task :=
  AwaitModelStatus modelUUID (fun status =>
    match status with
    | None => k
    | Some st => Dispatch (UpdateModelStatus modelUUID st) k
    end).

(** The job [fetchAllModelStatuses] pushes for [modelUUID]. *)
Definition pollJob (modelUUID : string) : Task :=
  ContinuePolling (fun continue =>
    if continue then
      fetchAndStoreModelStatus modelUUID
        (AwaitModelInfo modelUUID (fun fetched =>
           match fetched with
           | None => Rejected
           | Some modelInfo =>
               ContinuePolling (fun stillContinue =>
                 if stillContinue
                 then Dispatch (UpdateModelInfo modelInfo) Settled
                 else Settled)
           end))
    else Settled).

(** [new Limiter({ concurrency: 5 })]. *)
Definition concurrency : nat := 5.

(** The jobs pushed on the queue, one for each key of the model list. *)
Definition fetchAllModelStatuses (modelUUIDs : list string) : list Task :=
  List.map pollJob modelUUIDs.

(** What surrounds a job: the value of the polling signal after each
    number of suspensions of the job (others may flip it while the job
    is suspended), and the answers of the controller. *)
Record World : Type := {
  polling : nat -> bool;
  statusOf : string -> option FullStatus;
  infoOf : string -> option ModelInfo
}.

(** What an observer of a job sees: the reads of the signal with the
    value read, the completed fetches, and the store writes with the
    value the signal has when the write happens. *)
Inductive Event : Type :=
| Checked (enabled : bool)
| FetchedStatus (modelUUID : string)
| FetchedInfo (modelUUID : string)
| Wrote (a : Action) (enabled : bool).

(** The events of a job started after [clock] suspensions. *)
Fixpoint run (w : World) (clock : nat) (t : Task) : list Event :=
  match t with
  | Settled => []
  | Rejected => []
  | ContinuePolling k =>
      Checked (polling w clock) :: run w clock (k (polling w clock))
  | AwaitModelStatus modelUUID k =>
      FetchedStatus modelUUID :: run w (S clock) (k (statusOf w modelUUID))
  | AwaitModelInfo modelUUID k =>
      FetchedInfo modelUUID :: run w (S clock) (k (infoOf w modelUUID))
  | Dispatch a k => Wrote a (polling w clock) :: run w clock k
  end.

(** A store write made while the signal is disabled. *)
Definition isDisabledWrite (e : Event) : bool :=
  match e with
  | Wrote _ false => true
  | _ => false
  end.

End Polling.

Arguments Settled {FullStatus ModelInfo}.
Arguments Rejected {FullStatus ModelInfo}.
Arguments UpdateModelStatus {FullStatus ModelInfo} modelUUID status.
Arguments UpdateModelInfo {FullStatus ModelInfo} modelInfo.
Arguments Checked {FullStatus ModelInfo} enabled.
Arguments FetchedStatus {FullStatus ModelInfo} modelUUID.
Arguments FetchedInfo {FullStatus ModelInfo} modelUUID.
Arguments Wrote {FullStatus ModelInfo} a enabled.
Arguments pollJob {FullStatus ModelInfo} modelUUID.
Arguments run {FullStatus ModelInfo} w clock t.
Arguments isDisabledWrite {FullStatus ModelInfo} e.
Arguments polling {FullStatus ModelInfo} w clock.
Arguments statusOf {FullStatus ModelInfo} w modelUUID.
Arguments infoOf {FullStatus ModelInfo} w modelUUID.
Arguments Build_World {FullStatus ModelInfo} polling statusOf infoOf.

End Juju.

(** ** The vocabulary of the specification, and sample data *)

Module Spec.

(** Severity, ordered [Running < Alert < Blocked]. *)
Inductive Severity : Type :=
| Running
| Alert
| Blocked.

Definition rank (s : Severity) : nat :=
  match s with
  | Running => 0
  | Alert => 1
  | Blocked => 2
  end.

Definition severityName (s : Severity) : string :=
  match s with
  | Running => "running"
  | Alert => "alert"
  | Blocked => "blocked"
  end.

Definition severityMax (a b : Severity) : Severity :=
  if (rank b <? rank a)%nat then a else b.

(** The maximum of a list of severities; [Running] for the empty list. *)
Definition maximum (l : list Severity) : Severity :=
  List.fold_right severityMax Running l.

(** Blocked if the application's status is "blocked", alert if "unknown",
    else running. *)
Definition applicationSeverity (app : Application) : Severity :=
  if String.eqb (status (appStatus app)) "blocked" then Blocked
  else if String.eqb (status (appStatus app)) "unknown" then Alert
  else Running.

(** Blocked if the unit's agent status is "lost", alert if "allocating",
    else running. *)
Definition unitSeverity (unit : Unit) : Severity :=
  if String.eqb (status (agentStatus unit)) "lost" then Blocked
  else if String.eqb (status (agentStatus unit)) "allocating" then Alert
  else Running.

Definition unitSeverities (app : Application) : list Severity :=
  List.map (fun entry => unitSeverity (snd entry)) (units app).

(** The severities of all applications of a model and of all their units. *)
Definition entitySeverities (m : ModelData) : list Severity :=
  List.flat_map
    (fun entry => applicationSeverity (snd entry) :: unitSeverities (snd entry))
    (applications m).

(** What the loops of the rollup keep: below "blocked" no message has been
    stored. *)
Definition quiet (acc : StatusGroupData) : Prop :=
  highestStatus acc <> "blocked" -> messages acc = [].

(** The agent status messages of a list of units, in order. *)
Definition unitInfos (us : list (string * Unit)) : list string :=
  List.map (fun entry => info (agentStatus (snd entry))) us.

(** The rollup status of a model. *)
Definition rollup (m : ModelData) : string :=
  highestStatus (getModelStatusGroupData m).

(** The models of [entries] whose rollup status is [key], in order. *)
Definition bucket (key : string) (entries : list (string * ModelData))
  : list ModelData :=
  List.filter (fun m => String.eqb (rollup m) key) (List.map snd entries).

(** A model B with two applications, both "running", each with one unit
    whose agent status is "allocating". *)
Definition twoAllocating (m : StatusModel.t) (i : option Info.t)
  (app1 app2 unit1 unit2 appInfo1 appInfo2 unitInfo1 unitInfo2 : string)
  : ModelData :=
  {| model := m;
     modelInfo := i;
     applications :=
       [(app1,
         {| appStatus := {| status := "running"; info := appInfo1 |};
            units :=
              [(unit1,
                {| agentStatus :=
                     {| status := "allocating"; info := unitInfo1 |} |})] |});
        (app2,
         {| appStatus := {| status := "running"; info := appInfo2 |};
            units :=
              [(unit2,
                {| agentStatus :=
                     {| status := "allocating"; info := unitInfo2 |} |})] |})]
  |}.

(** The entries a grouping iterates over: none for a [null] store. *)
Definition inputModels (modelData : ModelDataStore)
  : list (string * ModelData) :=
  match modelData with
  | Some entries => entries
  | None => []
  end.

(** An application that is not blocked, with a first unit whose agent is
    lost and a second unit that is fine. *)
Definition lostThenIdle : ModelData :=
  {| model := {| StatusModel.cloudTag := "cloud-aws";
                 StatusModel.region := "eu-west-1" |};
     modelInfo := None;
     applications :=
       [("db",
         {| appStatus := {| status := "active"; info := "" |};
            units :=
              [("db/0",
                {| agentStatus :=
                     {| status := "lost"; info := "agent lost" |} |});
               ("db/1",
                {| agentStatus :=
                     {| status := "idle"; info := "ready" |} |})] |})] |}.

(** What follows the first occurrence of [sep] in [s], if there is one. *)
Fixpoint afterFirst (sep s : string) : option string :=
  if String.prefix sep s
  then Some (dropChars (String.length sep) s)
  else match s with
       | EmptyString => None
       | String _ rest => afterFirst sep rest
       end.

(** The tag "cloudcred-<cloud>_<user>@<domain>_<name>". *)
Definition credentialTag (cloud user domain name : string) : string :=
  "cloudcred-" ++ cloud ++ "_" ++ user ++ "@" ++ domain ++ "_" ++ name.

(** A tag is malformed when it does not contain "cloudcred-", or when what
    follows "cloudcred-" contains no "@". *)
Definition malformedCredentialTag (tag : string) : bool :=
  match afterFirst "cloudcred-" tag with
  | None => true
  | Some remainder => negb (includes "@" remainder)
  end.

(** The verdict of the collected segments on one model: true when some
    segment rules it out. *)
Definition verdict (segs : Selectors.Segments) (data : ModelData)
  : Completion bool :=
  someM (Selectors.segmentCallback data) segs.

(** The keys of the entries the segments rule out, in order. *)
Fixpoint removedKeys (segs : Selectors.Segments)
  (entries : list (string * ModelData)) : Completion (list string) :=
  match entries with
  | [] => Normal []
  | entry :: rest =>
      bind (verdict segs (snd entry)) (fun remove =>
      bind (removedKeys segs rest) (fun keys =>
      Normal (if remove then fst entry :: keys else keys)))
  end.

(** The entries of [obj] whose key is none of [keys]. *)
Definition deleteKeys (keys : list string) (obj : list (string * ModelData))
  : list (string * ModelData) :=
  List.filter (fun e => negb (arrayIncludes keys (fst e))) obj.

(** A definite mismatch: a cloud or region segment whose values do not
    include the model's cloud or region. *)
Definition definiteMismatch (data : ModelData)
  (entry : string * list (option string)) : bool :=
  (String.eqb (fst entry) "cloud"
   && negb (valuesInclude (snd entry)
              (Some (extractCloudName (StatusModel.cloudTag (model data))))))
  || (String.eqb (fst entry) "region"
      && negb (valuesInclude (snd entry)
                 (Some (StatusModel.region (model data))))).

(** The macaroon store of a bakery: [bakery.storage._store.localStorage]. *)
Definition macaroons {BakeryRest StorageRest : Type}
  (b : Root.Bakery BakeryRest StorageRest) : gmap string string :=
  Root.localStorage (Root._store (Root.storage b)).

(** A world in which polling is enabled when the job starts and disabled
    from its first suspension on, and the controller answers both fetches. *)
Definition disabledDuringStatusFetch : Juju.World string string :=
  {| Juju.polling := fun clock => match clock with O => true | S _ => false end;
     Juju.statusOf := fun _ => Some "full status";
     Juju.infoOf := fun _ => Some "model info" |}.

(** A store of two models: the first has no info record yet, the second
    has one. Both are on the cloud "aws". *)
Definition withoutInfo : ModelData :=
  {| model := {| StatusModel.cloudTag := "cloud-aws";
                 StatusModel.region := "eu-west-1" |};
     modelInfo := None;
     applications := [] |}.

Definition withInfo : ModelData :=
  {| model := {| StatusModel.cloudTag := "cloud-aws";
                 StatusModel.region := "us-east-1" |};
     modelInfo :=
       Some {| Info.ownerTag := "user-bob@external";
               Info.cloudTag := "cloud-aws";
               Info.cloudRegion := "us-east-1";
               Info.cloudCredentialTag :=
                 "cloudcred-aws_bob@external_prod" |};
     applications := [] |}.

Definition twoModels : list (string * ModelData) :=
  [("uuid-1", withoutInfo); ("uuid-2", withInfo)].

(** A model whose credential tag lacks the "cloudcred-" prefix. *)
Definition badTagInfo : Info.t :=
  {| Info.ownerTag := "user-bob@external";
     Info.cloudTag := "cloud-aws";
     Info.cloudRegion := "us-east-1";
     Info.cloudCredentialTag := "aws_bob@external_prod" |}.

Definition withBadTag : ModelData :=
  {| model := {| StatusModel.cloudTag := "cloud-aws";
                 StatusModel.region := "us-east-1" |};
     modelInfo := Some badTagInfo;
     applications := [] |}.

(** A logged-in state: the macaroon store holds the identity and one other
    macaroon. *)
Definition loggedInBakery : Root.Bakery unit unit :=
  {| Root.storage :=
       {| Root._store :=
            {| Root.localStorage :=
                 <["identity" := "aWRlbnRpdHk="]>
                   (<["charmstore" := "Y2hhcm1zdG9yZQ=="]> ∅) |};
          Root.storageRest := tt |};
     Root.bakeryRest := tt |}.

Definition loggedIn : Root.State unit unit unit :=
  {| Root.controllerConnection := Some tt;
     Root.bakery := Some loggedInBakery;
     Root.visitURL := None;
     Root.modelStatusPolling := Some true;
     Root.collapsibleSidebar := None |}.

End Spec.

Import Spec.

(** ** Status rollup *)

Section StatusRollup.

Lemma classify_application (app : Application) :
  groupStatus (getApplicationStatusGroup app)
  = severityName (applicationSeverity app).
Proof.
  unfold getApplicationStatusGroup, classify, applicationSeverity.
  unfold arrayIncludes.
  cbn [List.existsb].
  destruct (String.eqb_spec (status (appStatus app)) "blocked") as [-> | _];
    [ reflexivity | ].
  destruct (String.eqb (status (appStatus app)) "unknown"); reflexivity.
Qed.

Lemma classify_unit (unit : Unit) :
  groupStatus (getUnitStatusGroup unit) = severityName (unitSeverity unit).
Proof.
  unfold getUnitStatusGroup, classify, unitSeverity, arrayIncludes.
  cbn [List.existsb].
  destruct (String.eqb_spec (status (agentStatus unit)) "lost") as [-> | _];
    [ reflexivity | ].
  destruct (String.eqb (status (agentStatus unit)) "allocating"); reflexivity.
Qed.

Lemma setHighestStatus_max (a b : Severity) :
  setHighestStatus (severityName a) (severityName b)
  = severityName (severityMax a b).
Proof. destruct a, b; reflexivity. Qed.

Lemma checkHighestStatus_blocked (s : Severity) :
  checkHighestStatus (severityName s)
  = match s with Blocked => true | _ => false end.
Proof. destruct s; reflexivity. Qed.

Lemma maximum_cons (a : Severity) (l : list Severity) :
  maximum (a :: l) = severityMax a (maximum l).
Proof. reflexivity. Qed.

Lemma maximum_app (l1 l2 : list Severity) :
  maximum (l1 ++ l2) = severityMax (maximum l1) (maximum l2).
Proof.
  induction l1 as [| a l1 IH].
  - change (maximum l2 = severityMax Running (maximum l2)).
    destruct (maximum l2); reflexivity.
  - change (maximum (a :: (l1 ++ l2))
            = severityMax (maximum (a :: l1)) (maximum l2)).
    rewrite !maximum_cons, IH.
    destruct a, (maximum l1), (maximum l2); reflexivity.
Qed.

(** The unit loop: the status it leaves is the larger of the status it
    started with and the severities of the units. *)
Lemma units_highest (us : list (string * Unit)) :
  forall (acc : StatusGroupData) (s : Severity),
    highestStatus acc = severityName s ->
    highestStatus (List.fold_left unitCallback us acc)
    = severityName
        (severityMax
           (maximum (List.map (fun e => unitSeverity (snd e)) us)) s).
Proof.
  induction us as [| [unitId unit] us IH]; intros acc s Hacc.
  - change (highestStatus acc = severityName (severityMax Running s)).
    rewrite Hacc. destruct s; reflexivity.
  - cbn [List.fold_left List.map snd].
    rewrite (IH _ (severityMax (unitSeverity unit) s)).
    + rewrite maximum_cons.
      destruct (maximum _), (unitSeverity unit), s; reflexivity.
    + unfold unitCallback. cbn [snd].
      rewrite classify_unit, Hacc, setHighestStatus_max.
      destruct (checkHighestStatus _); reflexivity.
Qed.

(** One round of the application loop. *)
Lemma application_highest (acc : StatusGroupData) (s : Severity)
  (entry : string * Application) :
  highestStatus acc = severityName s ->
  highestStatus (appCallback acc entry)
  = severityName
      (severityMax
         (maximum
            (applicationSeverity (snd entry) :: unitSeverities (snd entry)))
         s).
Proof.
  intros Hacc. unfold appCallback.
  rewrite classify_application, Hacc, setHighestStatus_max.
  rewrite checkHighestStatus_blocked, maximum_cons.
  destruct (severityMax (applicationSeverity (snd entry)) s) eqn:Hmax.
  - rewrite units_highest with (s := Running) by reflexivity.
    fold (unitSeverities (snd entry)).
    destruct (maximum _), (applicationSeverity _), s;
      cbn in Hmax |- *; congruence.
  - rewrite units_highest with (s := Alert) by reflexivity.
    fold (unitSeverities (snd entry)).
    destruct (maximum _), (applicationSeverity _), s;
      cbn in Hmax |- *; congruence.
  - cbn [highestStatus].
    destruct (maximum _), (applicationSeverity _), s;
      cbn in Hmax |- *; congruence.
Qed.

(** The application loop, from any intermediate state. *)
Lemma applications_highest (apps : list (string * Application)) :
  forall (acc : StatusGroupData) (s : Severity),
    highestStatus acc = severityName s ->
    highestStatus (List.fold_left appCallback apps acc)
    = severityName
        (severityMax
           (maximum
              (List.flat_map
                 (fun e =>
                    applicationSeverity (snd e) :: unitSeverities (snd e))
                 apps))
           s).
Proof.
  induction apps as [| entry apps IH]; intros acc s Hacc.
  - change (highestStatus acc = severityName (severityMax Running s)).
    rewrite Hacc. destruct s; reflexivity.
  - cbn [List.fold_left List.flat_map].
    rewrite (IH _ _ (application_highest acc s entry Hacc)).
    rewrite maximum_app.
    destruct (maximum _), (maximum _), s; reflexivity.
Qed.

(** The status the whole rollup leaves, as a severity. *)
Lemma rollup_maximum (m : ModelData) :
  rollup m = severityName (maximum (entitySeverities m)).
Proof.
  unfold rollup, getModelStatusGroupData, entitySeverities.
  rewrite applications_highest with (s := Running) by reflexivity.
  destruct (maximum _); reflexivity.
Qed.

(** C1. For every model, the highest status [getModelStatusGroupData]
    returns is the maximum, in the order running < alert < blocked, of the
    severities of all its applications and of all their units. *)
Theorem highestStatus_is_maximum (m : ModelData) :
  highestStatus (getModelStatusGroupData m)
  = severityName (maximum (entitySeverities m)).
Proof. exact (rollup_maximum m). Qed.

(** The rollup status is always one of the three status names. *)
Lemma rollup_cases (m : ModelData) :
  rollup m = "blocked" \/ rollup m = "alert" \/ rollup m = "running".
Proof.
  rewrite rollup_maximum.
  destruct (maximum _); cbn; auto.
Qed.

(** Nothing ranks above "blocked". *)
Lemma setHighestStatus_blocked (entityStatus : string) :
  setHighestStatus entityStatus "blocked" = "blocked".
Proof.
  unfold setHighestStatus, indexOf, statusOrder. cbn [indexOfFrom].
  destruct (String.eqb_spec "running" entityStatus) as [<- | _];
    [ reflexivity | ].
  destruct (String.eqb_spec "alert" entityStatus) as [<- | _];
    [ reflexivity | ].
  destruct (String.eqb_spec "blocked" entityStatus) as [<- | _];
    reflexivity.
Qed.

(** Once the highest status is "blocked", the unit loop runs on to the
    last unit and appends the message of every unit it visits. *)
Lemma units_after_blocked (us : list (string * Unit)) :
  forall msgs : list string,
    List.fold_left unitCallback us
      {| highestStatus := "blocked"; messages := msgs |}
    = {| highestStatus := "blocked"; messages := msgs ++ unitInfos us |}.
Proof.
  induction us as [| [unitId unit] us IH]; intros msgs.
  - cbn. rewrite app_nil_r. reflexivity.
  - cbn [List.fold_left]. unfold unitCallback at 2.
    cbn [highestStatus messages snd].
    rewrite setHighestStatus_blocked.
    change (checkHighestStatus "blocked") with true. cbn iota.
    rewrite IH. unfold unitInfos. cbn [List.map snd].
    rewrite <- app_assoc. reflexivity.
Qed.

Lemma checkHighestStatus_eqb (highest : string) :
  checkHighestStatus highest = String.eqb highest "blocked".
Proof. reflexivity. Qed.

Lemma unitCallback_quiet (acc : StatusGroupData) (entry : string * Unit) :
  quiet acc -> quiet (unitCallback acc entry).
Proof.
  unfold quiet, unitCallback. intros Hacc.
  set (highest := setHighestStatus _ (highestStatus acc)).
  rewrite checkHighestStatus_eqb.
  destruct (String.eqb_spec highest "blocked") as [Heq | Hne];
    cbn [highestStatus messages]; [ congruence | ].
  intros _. apply Hacc. intros Hblocked. apply Hne.
  unfold highest. rewrite Hblocked. apply setHighestStatus_blocked.
Qed.

Lemma units_quiet (us : list (string * Unit)) :
  forall acc : StatusGroupData,
    quiet acc -> quiet (List.fold_left unitCallback us acc).
Proof.
  induction us as [| entry us IH]; intros acc Hacc; [ exact Hacc | ].
  cbn [List.fold_left]. apply IH, unitCallback_quiet, Hacc.
Qed.

Lemma appCallback_quiet (acc : StatusGroupData)
  (entry : string * Application) :
  quiet acc -> quiet (appCallback acc entry).
Proof.
  intros Hacc. unfold appCallback.
  set (highest := setHighestStatus _ (highestStatus acc)).
  rewrite checkHighestStatus_eqb.
  destruct (String.eqb_spec highest "blocked") as [Heq | Hne].
  - unfold quiet. cbn [highestStatus]. congruence.
  - apply units_quiet. unfold quiet. cbn [highestStatus messages].
    intros _. apply Hacc. intros Hblocked. apply Hne.
    unfold highest. rewrite Hblocked. apply setHighestStatus_blocked.
Qed.

(** A rollup below "blocked" carries no message. *)
Lemma messages_only_when_blocked (m : ModelData) :
  highestStatus (getModelStatusGroupData m) <> "blocked" ->
  messages (getModelStatusGroupData m) = [].
Proof.
  unfold getModelStatusGroupData.
  generalize (applications m). intros apps.
  assert (H : forall acc, quiet acc ->
                quiet (List.fold_left appCallback apps acc)).
  { induction apps as [| entry apps IH]; intros acc Hacc; [ exact Hacc | ].
    cbn [List.fold_left]. apply IH, appCallback_quiet, Hacc. }
  apply H. unfold quiet. reflexivity.
Qed.

(** C2. The unit whose agent is lost raises the status to "blocked" and
    its message is stored; the scan of the application's units then goes
    on, and the message of the following unit is stored as well. *)
Theorem unit_scan_goes_on_after_blocked :
  getModelStatusGroupData lostThenIdle
  = {| highestStatus := "blocked"; messages := ["agent lost"; "ready"] |}.
Proof. reflexivity. Qed.

(** C3 as stated fails: with one allocating unit in each of two running
    applications the status is "alert" but no message is stored. *)
Lemma two_allocating_messages_differ :
  highestStatus
    (getModelStatusGroupData
       (twoAllocating
          {| StatusModel.cloudTag := "cloud-aws"; StatusModel.region := "" |}
          None "db" "web" "db/0" "web/0" "" "" "waiting for machine"
          "waiting for agent"))
  = "alert"
  /\ messages
       (getModelStatusGroupData
          (twoAllocating
             {| StatusModel.cloudTag := "cloud-aws"; StatusModel.region := "" |}
             None "db" "web" "db/0" "web/0" "" "" "waiting for machine"
             "waiting for agent"))
     <> ["waiting for machine"; "waiting for agent"].
Proof. split; [ reflexivity | discriminate ]. Qed.

(** C3, amended. For a model with exactly two applications, each "running"
    and each with exactly one unit whose agent status is "allocating", the
    rollup is "alert" with an empty list of messages: a message is stored
    only when the highest status is "blocked". *)
Theorem two_allocating_rollup (m : StatusModel.t) (i : option Info.t)
  (app1 app2 unit1 unit2 appInfo1 appInfo2 unitInfo1 unitInfo2 : string) :
  getModelStatusGroupData
    (twoAllocating m i app1 app2 unit1 unit2 appInfo1 appInfo2 unitInfo1
       unitInfo2)
  = {| highestStatus := "alert"; messages := [] |}.
Proof. reflexivity. Qed.

End StatusRollup.

(** ** Grouping by status *)

Section Grouping.

Import Selectors.

Lemma bucket_cons (key : string) (entry : string * ModelData)
  (entries : list (string * ModelData)) :
  bucket key (entry :: entries)
  = if String.eqb (rollup (snd entry)) key
    then snd entry :: bucket key entries
    else bucket key entries.
Proof. reflexivity. Qed.

(** The grouping loop from any intermediate [grouped]: it never throws and
    appends to each array the models of its status, in order. *)
Lemma group_loop (entries : list (string * ModelData)) :
  forall grouped : Grouped.t,
    forEachM groupCallback entries grouped
    = Normal
        {| Grouped.blocked :=
             Grouped.blocked grouped ++ bucket "blocked" entries;
           Grouped.alert := Grouped.alert grouped ++ bucket "alert" entries;
           Grouped.running :=
             Grouped.running grouped ++ bucket "running" entries |}.
Proof.
  induction entries as [| entry entries IH]; intros grouped.
  - cbn. rewrite !app_nil_r. destruct grouped; reflexivity.
  - cbn [forEachM]. unfold groupCallback at 1, pushModel.
    fold (rollup (snd entry)). rewrite !bucket_cons.
    destruct (rollup_cases (snd entry)) as [H | [H | H]]; rewrite H;
      cbn [String.eqb Ascii.eqb Bool.eqb andb bind]; rewrite IH;
      cbn [Grouped.blocked Grouped.alert Grouped.running];
      rewrite <- app_assoc; reflexivity.
Qed.

(** The three arrays together hold as many models as the input. *)
Lemma bucket_lengths (entries : list (string * ModelData)) :
  List.length (bucket "blocked" entries) + List.length (bucket "alert" entries)
  + List.length (bucket "running" entries)
  = List.length entries.
Proof.
  induction entries as [| entry entries IH]; [ reflexivity | ].
  rewrite !bucket_cons.
  destruct (rollup_cases (snd entry)) as [H | [H | H]]; rewrite H;
    cbn [String.eqb Ascii.eqb Bool.eqb andb List.length]; lia.
Qed.

Lemma bucket_In (key : string) (entries : list (string * ModelData))
  (m : ModelData) :
  In m (bucket key entries) <-> In m (List.map snd entries) /\ rollup m = key.
Proof.
  unfold bucket. rewrite List.filter_In, String.eqb_eq. reflexivity.
Qed.

(** C4. [groupModelsByStatus] always returns the three arrays; each holds,
    in the order of the input, the models whose rollup status names it, so
    a model of the input is in the one array its rollup status names, and
    the three lengths add up to the number of input models. *)
Theorem groupModelsByStatus_partition (modelData : ModelDataStore) :
  exists grouped : Grouped.t,
    groupModelsByStatus modelData = Normal grouped
    /\ Grouped.blocked grouped = bucket "blocked" (inputModels modelData)
    /\ Grouped.alert grouped = bucket "alert" (inputModels modelData)
    /\ Grouped.running grouped = bucket "running" (inputModels modelData)
    /\ (forall m : ModelData,
          In m (List.map snd (inputModels modelData)) ->
          (In m (Grouped.blocked grouped) <-> rollup m = "blocked")
          /\ (In m (Grouped.alert grouped) <-> rollup m = "alert")
          /\ (In m (Grouped.running grouped) <-> rollup m = "running")
          /\ (rollup m = "blocked" \/ rollup m = "alert"
              \/ rollup m = "running"))
    /\ Counts.blocked (countModelStatusGroups grouped)
       + Counts.alert (countModelStatusGroups grouped)
       + Counts.running (countModelStatusGroups grouped)
       = List.length (inputModels modelData).
Proof.
  exists {| Grouped.blocked := bucket "blocked" (inputModels modelData);
            Grouped.alert := bucket "alert" (inputModels modelData);
            Grouped.running := bucket "running" (inputModels modelData) |}.
  split.
  { destruct modelData as [entries |]; [ | reflexivity ].
    unfold groupModelsByStatus. rewrite group_loop. reflexivity. }
  cbn [Grouped.blocked Grouped.alert Grouped.running countModelStatusGroups
       Counts.blocked Counts.alert Counts.running].
  repeat split; try (rewrite bucket_In in *; tauto);
    try (intros; rewrite bucket_In; tauto).
  - apply rollup_cases.
  - apply bucket_lengths.
Qed.

End Grouping.

(** ** Facts about [split] *)

Section SplitFacts.

Lemma prefix_append (p s : string) : String.prefix p (p ++ s) = true.
Proof.
  induction p as [| a p IH]; [ destruct s; reflexivity | ].
  change (String.prefix (String a p) (String a (p ++ s)) = true).
  cbn [String.prefix]. destruct (ascii_dec a a); [ exact IH | congruence ].
Qed.

Lemma dropChars_append (p s : string) :
  dropChars (String.length p) (p ++ s) = s.
Proof. induction p as [| a p IH]; [ reflexivity | exact IH ]. Qed.

Lemma prefix_decompose (p : string) :
  forall s : string,
    String.prefix p s = true -> s = p ++ dropChars (String.length p) s.
Proof.
  induction p as [| a p IH]; intros s H; [ reflexivity | ].
  destruct s as [| b s]; [ discriminate | ].
  cbn [String.prefix] in H.
  destruct (ascii_dec a b) as [-> | _]; [ | discriminate ].
  change (String b s = String b (p ++ dropChars (String.length p) s)).
  f_equal. apply IH, H.
Qed.

(** Without an occurrence of the separator the string is the only piece. *)
Lemma splitFrom_absent (sep : string) :
  forall s : string, includes sep s = false -> splitFrom sep 0 s = [s].
Proof.
  induction s as [| c s IH]; intros H; [ reflexivity | ].
  cbn [includes] in H. apply orb_false_iff in H as [Hp Hs].
  cbn [splitFrom]. rewrite Hp, (IH Hs). reflexivity.
Qed.

(** Passing over the rest of a matched separator. *)
Lemma splitFrom_skip (sep pre s : string) :
  splitFrom sep (String.length pre) (pre ++ s) = splitFrom sep 0 s.
Proof. induction pre as [| a pre IH]; [ reflexivity | exact IH ]. Qed.

(** A string that starts with the separator: an empty first piece. *)
Lemma splitFrom_separator (a : ascii) (sep s : string) :
  splitFrom (String a sep) 0 (String a sep ++ s)
  = "" :: splitFrom (String a sep) 0 s.
Proof.
  change (String a sep ++ s) with (String a (sep ++ s)).
  cbn [splitFrom].
  change (String a (sep ++ s)) with (String a sep ++ s).
  rewrite prefix_append.
  cbn [String.length]. rewrite Nat.sub_succ, Nat.sub_0_r, splitFrom_skip.
    reflexivity.
Qed.

(** [split] never returns an empty array. *)
Lemma splitFrom_nonempty (sep : string) :
  forall (s : string) (skip : nat), splitFrom sep skip s <> [].
Proof.
  induction s as [| c s IH]; intros skip; [ discriminate | ].
  cbn [splitFrom]. destruct skip as [| k]; [ | apply IH ].
  destruct (String.prefix sep (String c s)); [ discriminate | ].
  destruct (splitFrom sep 0 s); discriminate.
Qed.

(** The first piece ends at the first occurrence of the separator. *)
Lemma splitFrom_afterFirst (a : ascii) (sep : string) :
  forall s rest : string,
    afterFirst (String a sep) s = Some rest ->
    exists piece : string,
      splitFrom (String a sep) 0 s
      = piece :: splitFrom (String a sep) 0 rest.
Proof.
  induction s as [| c s IH]; intros rest H; [ discriminate | ].
  cbn [afterFirst] in H. cbn [splitFrom].
  destruct (String.prefix (String a sep) (String c s)) eqn:Hp.
  - injection H as H. subst rest. exists "".
    pose proof (prefix_decompose _ _ Hp) as Hs.
    cbn [String.length dropChars] in Hs |- *.
    rewrite Nat.sub_succ, Nat.sub_0_r.
    change (String c s = String a (sep ++ dropChars (String.length sep) s))
      in Hs.
    injection Hs as _ Hs.
    set (tail := dropChars (String.length sep) s) in *. clearbody tail.
    subst s. rewrite splitFrom_skip. reflexivity.
  - destruct (IH _ H) as (piece & ->). eexists. reflexivity.
Qed.

Lemma afterFirst_absent (sep : string) :
  forall s : string, afterFirst sep s = None <-> includes sep s = false.
Proof.
  induction s as [| c s IH]; cbn [afterFirst includes].
  - destruct (String.prefix sep ""); split; congruence.
  - destruct (String.prefix sep (String c s)); cbn [orb]; [ | exact IH ].
    split; congruence.
Qed.

(** Single-character patterns. *)
Lemma includes_char_cons (a c : ascii) (s : string) :
  includes (String a "") (String c s)
  = (if ascii_dec a c then true else false) || includes (String a "") s.
Proof.
  cbn [includes String.prefix].
  destruct (ascii_dec a c); destruct s; reflexivity.
Qed.

Lemma includes_char_append (a : ascii) (s1 s2 : string) :
  includes (String a "") (s1 ++ s2)
  = includes (String a "") s1 || includes (String a "") s2.
Proof.
  induction s1 as [| c s1 IH]; [ reflexivity | ].
  change (String c s1 ++ s2) with (String c (s1 ++ s2)).
  rewrite !includes_char_cons, IH, orb_assoc. reflexivity.
Qed.

(** The pieces of a string without the character are without it. *)
Lemma splitFrom_pieces_without (a : ascii) (sep : string) :
  forall (s : string) (skip : nat) (piece : string),
    includes (String a "") s = false ->
    In piece (splitFrom sep skip s) ->
    includes (String a "") piece = false.
Proof.
  induction s as [| c s IH]; intros skip piece Hs Hin.
  - destruct Hin as [<- | []]. reflexivity.
  - rewrite includes_char_cons in Hs. apply orb_false_iff in Hs as [Hc Hs].
    cbn [splitFrom] in Hin. destruct skip as [| k]; [ | eauto ].
    destruct (String.prefix sep (String c s)).
    + destruct Hin as [<- | Hin]; [ reflexivity | eauto ].
    + pose proof (fun q => IH 0 q Hs) as IH0.
      destruct (splitFrom sep 0 s) as [| p ps].
      * destruct Hin as [<- | []]. rewrite includes_char_cons, Hc. reflexivity.
      * destruct Hin as [<- | Hin].
        -- rewrite includes_char_cons, Hc. apply IH0. left. reflexivity.
        -- apply IH0. right. exact Hin.
Qed.

(** Splitting at a character: the first piece is what stands before its
    first occurrence. *)
Lemma splitFrom_char (a : ascii) :
  forall pre rest : string,
    includes (String a "") pre = false ->
    splitFrom (String a "") 0 (pre ++ String a rest)
    = pre :: splitFrom (String a "") 0 rest.
Proof.
  induction pre as [| c pre IH]; intros rest H.
  - change ("" ++ String a rest) with (String a "" ++ rest).
    apply splitFrom_separator.
  - rewrite includes_char_cons in H. apply orb_false_iff in H as [Hc H].
    change (String c pre ++ String a rest)
      with (String c (pre ++ String a rest)).
    cbn [splitFrom String.prefix].
    destruct (ascii_dec a c); [ discriminate | ].
    rewrite (IH _ H). reflexivity.
Qed.

End SplitFacts.

(** ** Credential names *)

Section CredentialName.

Import Selectors.

Lemma append_cons_assoc (s1 : string) (c : ascii) (s2 s3 : string) :
  s1 ++ String c (s2 ++ s3) = (s1 ++ String c s2) ++ s3.
Proof.
  induction s1 as [| a s1 IH]; [ reflexivity | ].
  change (String a (s1 ++ String c (s2 ++ s3))
          = String a ((s1 ++ String c s2) ++ s3)).
  f_equal. exact IH.
Qed.

(** A tag without "cloudcred-": the first [split] has no second piece. *)
Lemma extractCredentialName_no_prefix (tag : string) :
  includes "cloudcred-" tag = false -> extractCredentialName tag = Throw.
Proof.
  intros H. unfold extractCredentialName, split.
  rewrite (splitFrom_absent _ _ H). reflexivity.
Qed.

(** A tag with no "@" after "cloudcred-": the second [split] has no second
    piece. *)
Lemma extractCredentialName_no_at (tag remainder : string) :
  afterFirst "cloudcred-" tag = Some remainder ->
  includes "@" remainder = false ->
  extractCredentialName tag = Throw.
Proof.
  intros Hafter Hat. unfold extractCredentialName, split.
  destruct (splitFrom_afterFirst _ _ _ _ Hafter) as (piece & ->).
  pose proof (splitFrom_pieces_without "@" "cloudcred-" remainder 0) as Hpieces.
  destruct (splitFrom "cloudcred-" 0 remainder) as [| piece1 pieces] eqn:Hsplit.
  - exfalso. exact (splitFrom_nonempty _ _ _ Hsplit).
  - cbn [second nth_error bind].
    rewrite (splitFrom_absent "@" piece1); [ reflexivity | ].
    apply Hpieces; [ exact Hat | left; reflexivity ].
Qed.

Lemma extractCredentialName_malformed (tag : string) :
  malformedCredentialTag tag = true -> extractCredentialName tag = Throw.
Proof.
  unfold malformedCredentialTag.
  destruct (afterFirst "cloudcred-" tag) as [remainder |] eqn:Hafter; intros H.
  - apply (extractCredentialName_no_at _ _ Hafter).
    apply negb_true_iff, H.
  - apply extractCredentialName_no_prefix, afterFirst_absent, Hafter.
Qed.

(** A tag whose parts are free of the separators: the name comes out. *)
Lemma extractCredentialName_wellformed (cloud user domain name : string) :
  includes "cloudcred-"
    (cloud ++ "_" ++ user ++ "@" ++ domain ++ "_" ++ name) = false ->
  includes "@" cloud = false ->
  includes "@" user = false ->
  includes "@" domain = false ->
  includes "@" name = false ->
  includes "_" domain = false ->
  includes "_" name = false ->
  extractCredentialName (credentialTag cloud user domain name)
  = Normal (Some name).
Proof.
  intros Hprefix Hcloud Huser Hdomain Hname Hdomain' Hname'.
  unfold extractCredentialName, credentialTag, split.
  rewrite splitFrom_separator, (splitFrom_absent _ _ Hprefix).
  cbn [second nth_error bind].
  change (cloud ++ "_" ++ user ++ "@" ++ domain ++ "_" ++ name)
    with (cloud ++ String "_" (user ++ String "@" (domain ++ String "_" name))).
  rewrite append_cons_assoc, splitFrom_char.
  - rewrite splitFrom_absent.
    + cbn [second nth_error bind].
      rewrite (splitFrom_char "_" _ _ Hdomain'), (splitFrom_absent _ _ Hname').
      reflexivity.
    + rewrite includes_char_append, includes_char_cons, Hdomain, Hname.
      reflexivity.
  - rewrite includes_char_append, includes_char_cons, Hcloud, Huser.
    reflexivity.
Qed.

(** A loop whose callback throws at one of the elements throws. *)
Lemma forEachM_throws {A S : Type} (f : S -> A -> Completion S) (x : A) :
  (forall acc : S, f acc x = Throw) ->
  forall (l : list A) (acc : S), In x l -> forEachM f l acc = Throw.
Proof.
  intros Hx. induction l as [| y l IH]; intros acc Hin; [ destruct Hin | ].
  cbn [forEachM]. destruct Hin as [-> | Hin].
  - rewrite Hx. reflexivity.
  - destruct (f acc y); [ apply IH, Hin | reflexivity ].
Qed.

(** C10 as stated fails: a credential name with an underscore is cut at
    the underscore. *)
Lemma credential_name_cut_at_underscore :
  extractCredentialName (credentialTag "aws" "bob" "external" "my_cred")
  = Normal (Some "my")
  /\ extractCredentialName (credentialTag "aws" "bob" "external" "my_cred")
     <> Normal (Some "my_cred").
Proof. split; [ reflexivity | discriminate ]. Qed.

(** C10, amended. [extractCredentialName] returns the name of a tag
    "cloudcred-<cloud>_<user>@<domain>_<name>" whose parts hold no
    separator ("cloudcred-" nowhere after the prefix, "@" in no part, "_"
    neither in the domain nor in the name). It throws for every tag that
    does not contain "cloudcred-" and for every tag with no "@" after
    "cloudcred-"; so the collection of the available filters throws as soon
    as one model with an info record has such a tag, and so does the
    credential segment of [filterModelData] on such a model. *)
Theorem extractCredentialName_partial :
  (forall cloud user domain name : string,
      includes "cloudcred-"
        (cloud ++ "_" ++ user ++ "@" ++ domain ++ "_" ++ name) = false ->
      includes "@" cloud = false ->
      includes "@" user = false ->
      includes "@" domain = false ->
      includes "@" name = false ->
      includes "_" domain = false ->
      includes "_" name = false ->
      extractCredentialName (credentialTag cloud user domain name)
      = Normal (Some name))
  /\ (forall tag : string,
        includes "cloudcred-" tag = false ->
        extractCredentialName tag = Throw)
  /\ (forall tag remainder : string,
        afterFirst "cloudcred-" tag = Some remainder ->
        includes "@" remainder = false ->
        extractCredentialName tag = Throw)
  /\ (forall (modelData : list (string * ModelData)) (uuid : string)
        (m : ModelData) (i : Info.t),
        In (uuid, m) modelData ->
        modelInfo m = Some i ->
        malformedCredentialTag (Info.cloudCredentialTag i) = true ->
        FilterTags.availableFilters modelData = Throw)
  /\ (forall (data : ModelData) (i : Info.t) (values : list (option string)),
        modelInfo data = Some i ->
        malformedCredentialTag (Info.cloudCredentialTag i) = true ->
        segmentCallback data ("credential", values) = Throw).
Proof.
  split; [ exact extractCredentialName_wellformed | ].
  split; [ exact extractCredentialName_no_prefix | ].
  split; [ exact extractCredentialName_no_at | ].
  split.
  - intros modelData uuid m i Hin Hinfo Hbad.
    unfold FilterTags.availableFilters.
    apply forEachM_throws with (x := m).
    + intros acc. unfold FilterTags.modelCallback. rewrite Hinfo.
      rewrite (extractCredentialName_malformed _ Hbad). reflexivity.
    + change m with (snd (uuid, m)). apply List.in_map, Hin.
  - intros data i values Hinfo Hbad.
    unfold segmentCallback. cbn [fst snd]. rewrite Hinfo.
    rewrite (extractCredentialName_malformed _ Hbad). reflexivity.
Qed.

(** The hypotheses of the five parts of C10 hold at concrete tags. *)
Lemma extractCredentialName_partial_witness :
  extractCredentialName (credentialTag "google" "pizza" "external" "prod")
  = Normal (Some "prod")
  /\ extractCredentialName "google_pizza@external_prod" = Throw
  /\ extractCredentialName "cloudcred-google_pizza" = Throw
  /\ FilterTags.availableFilters
       [("uuid-1", withoutInfo); ("uuid-3", withBadTag)]
     = Throw
  /\ segmentCallback withBadTag ("credential", [Some "prod"]) = Throw.
Proof.
  destruct extractCredentialName_partial
    as (Hname & Hprefix & Hat & Hall & Hseg).
  split; [ apply Hname; reflexivity | ].
  split; [ apply Hprefix; reflexivity | ].
  split; [ apply (Hat _ "google_pizza"); reflexivity | ].
  split.
  - apply (Hall _ "uuid-3" withBadTag badTagInfo);
      [ right; left; reflexivity | reflexivity | reflexivity ].
  - apply (Hseg _ badTagInfo); reflexivity.
Defined.

End CredentialName.

(** ** Filtering *)

Section Filtering.

Import Selectors.

Lemma deleteKeys_nil (obj : list (string * ModelData)) :
  deleteKeys [] obj = obj.
Proof.
  unfold deleteKeys. induction obj as [| e obj IH]; [ reflexivity | ].
  cbn. f_equal. exact IH.
Qed.

Lemma deleteKeys_cons (key : string) (keys : list string)
  (obj : list (string * ModelData)) :
  deleteKeys keys (deleteKey key obj) = deleteKeys (key :: keys) obj.
Proof.
  unfold deleteKeys, deleteKey, arrayIncludes.
  induction obj as [| e obj IH]; [ reflexivity | ].
  cbn [List.filter List.existsb].
  destruct (String.eqb (fst e) key); cbn [negb orb]; [ exact IH | ].
  cbn [List.filter]. destruct (negb _); [ f_equal | ]; exact IH.
Qed.

Lemma deleteKeys_In (keys : list string) (obj : list (string * ModelData))
  (e : string * ModelData) :
  In e (deleteKeys keys obj) <-> In e obj /\ arrayIncludes keys (fst e) = false.
Proof.
  unfold deleteKeys. rewrite List.filter_In, negb_true_iff. reflexivity.
Qed.

(** The removal loop deletes from the clone the keys of the entries the
    segments rule out, and throws when a verdict throws. *)
Lemma remove_loop (segs : Segments) (entries : list (string * ModelData)) :
  forall cloned : list (string * ModelData),
    forEachM (removeCallback segs) entries cloned
    = bind (removedKeys segs entries)
        (fun keys => Normal (deleteKeys keys cloned)).
Proof.
  induction entries as [| entry entries IH]; intros cloned.
  - cbn. rewrite deleteKeys_nil. reflexivity.
  - cbn [forEachM removedKeys]. unfold removeCallback at 1.
    fold (verdict segs (snd entry)).
    destruct (verdict segs (snd entry)) as [remove |]; [ | reflexivity ].
    cbn [bind]. rewrite IH.
    destruct (removedKeys segs entries) as [keys |]; [ | reflexivity ].
    cbn [bind]. destruct remove; [ | reflexivity ].
    rewrite deleteKeys_cons. reflexivity.
Qed.

(** Every entry has a verdict, and the ruled-out ones are in the keys. *)
Lemma removedKeys_verdict (segs : Segments) :
  forall (entries : list (string * ModelData)) (keys : list string),
    removedKeys segs entries = Normal keys ->
    forall e : string * ModelData,
      In e entries ->
      exists remove : bool,
        verdict segs (snd e) = Normal remove
        /\ (remove = true -> arrayIncludes keys (fst e) = true).
Proof.
  induction entries as [| entry entries IH]; intros keys H e Hin;
    [ destruct Hin | ].
  cbn [removedKeys] in H.
  destruct (verdict segs (snd entry)) as [remove |] eqn:Hv; [ | discriminate ].
  cbn [bind] in H.
  destruct (removedKeys segs entries) as [keys' |]; [ | discriminate ].
  injection H as <-.
  destruct Hin as [<- | Hin].
  - exists remove. split; [ exact Hv | intros -> ].
    unfold arrayIncludes. cbn [List.existsb].
    rewrite String.eqb_refl. reflexivity.
  - destruct (IH keys' eq_refl e Hin) as (r & Hr & Hkeys).
    exists r. split; [ exact Hr | intros Htrue ].
    specialize (Hkeys Htrue). unfold arrayIncludes in *.
    destruct remove; [ | exact Hkeys ].
    cbn [List.existsb]. rewrite Hkeys. apply orb_true_r.
Qed.

(** Every key comes from an entry the segments rule out. *)
Lemma removedKeys_origin (segs : Segments) :
  forall (entries : list (string * ModelData)) (keys : list string),
    removedKeys segs entries = Normal keys ->
    forall key : string,
      arrayIncludes keys key = true ->
      exists data : ModelData,
        In (key, data) entries /\ verdict segs data = Normal true.
Proof.
  induction entries as [| [uuid data] entries IH]; intros keys H key Hkey.
  - injection H as <-. discriminate.
  - cbn [removedKeys fst snd] in H.
    destruct (verdict segs data) as [remove |] eqn:Hv; [ | discriminate ].
    cbn [bind] in H.
    destruct (removedKeys segs entries) as [keys' |]; [ | discriminate ].
    injection H as <-.
    assert (Hrest : arrayIncludes keys' key = true ->
                    exists d, In (key, d) ((uuid, data) :: entries)
                              /\ verdict segs d = Normal true).
    { intros Hk. destruct (IH keys' eq_refl key Hk) as (d & Hin & Hd).
      exists d. split; [ right; exact Hin | exact Hd ]. }
    destruct remove; [ | exact (Hrest Hkey) ].
    unfold arrayIncludes in Hkey. cbn [List.existsb] in Hkey.
    apply orb_true_iff in Hkey as [Hhere | Hk]; [ | exact (Hrest Hk) ].
    apply String.eqb_eq in Hhere as ->.
    exists data. split; [ left; reflexivity | exact Hv ].
Qed.

(** Nothing is removed when no entry is ruled out. *)
Lemma removedKeys_none (segs : Segments) :
  forall entries : list (string * ModelData),
    (forall e, In e entries -> verdict segs (snd e) = Normal false) ->
    removedKeys segs entries = Normal [].
Proof.
  induction entries as [| entry entries IH]; intros H; [ reflexivity | ].
  cbn [removedKeys]. rewrite (H entry (or_introl eq_refl)). cbn [bind].
  rewrite IH; [ reflexivity | ].
  intros e He. apply H. right. exact He.
Qed.

(** A second pass over the result of the removal loop removes nothing. *)
Lemma remove_loop_twice (segs : Segments)
  (entries result : list (string * ModelData)) :
  forEachM (removeCallback segs) entries entries = Normal result ->
  forEachM (removeCallback segs) result result = Normal result.
Proof.
  rewrite !remove_loop.
  destruct (removedKeys segs entries) as [keys |] eqn:Hkeys; [ | discriminate ].
  cbn [bind]. intros [= <-].
  rewrite removedKeys_none;
    [ cbn [bind]; rewrite deleteKeys_nil; reflexivity | ].
  intros e He. apply deleteKeys_In in He as [He Hkept].
  destruct (removedKeys_verdict _ _ _ Hkeys e He) as (remove & Hv & Hin).
  destruct remove; [ | exact Hv ].
  rewrite (Hin eq_refl) in Hkept. discriminate.
Qed.

(** C7. Filtering is idempotent: filtering the result of a filtering with
    the same filters returns that result, and where the first filtering
    throws there is no result to filter. *)
Theorem filterModelData_idempotent (filters : option (list string))
  (modelData : ModelDataStore) :
  bind (filterModelData filters modelData) (filterModelData filters)
  = filterModelData filters modelData.
Proof.
  unfold filterModelData.
  destruct filters as [fs |]; [ | reflexivity ].
  destruct (forEachM collectCallback fs []) as [segs |]; [ | reflexivity ].
  cbn [bind]. destruct modelData as [entries |]; [ | reflexivity ].
  destruct (forEachM (removeCallback segs) entries entries)
    as [result |] eqn:Hloop; [ | reflexivity ].
  cbn [bind]. rewrite (remove_loop_twice _ _ _ Hloop). reflexivity.
Qed.

(** Without an info record the credential and owner segments are passed
    over: the verdict is that of the cloud and region segments. *)
Lemma verdict_without_info (data : ModelData) :
  modelInfo data = None ->
  forall segs : Segments,
    verdict segs data = Normal (List.existsb (definiteMismatch data) segs).
Proof.
  intros Hinfo. unfold verdict.
  induction segs as [| [segment values] segs IH]; [ reflexivity | ].
  cbn [someM List.existsb]. unfold segmentCallback at 1, definiteMismatch at 1.
  cbn [fst snd]. rewrite Hinfo.
  destruct (String.eqb_spec segment "cloud") as [-> | _].
  { cbn [bind andb orb String.eqb Ascii.eqb Bool.eqb].
    rewrite orb_false_r. destruct (negb _); [ reflexivity | exact IH ]. }
  destruct (String.eqb_spec segment "credential") as [-> | _];
    [ exact IH | ].
  destruct (String.eqb_spec segment "region") as [-> | _].
  { cbn [bind andb orb]. destruct (negb _); [ reflexivity | exact IH ]. }
  destruct (String.eqb segment "owner"); exact IH.
Qed.

Lemma unique_key (entries : list (string * ModelData)) (key : string)
  (a b : ModelData) :
  List.NoDup (List.map fst entries) ->
  In (key, a) entries -> In (key, b) entries -> a = b.
Proof.
  induction entries as [| [k d] entries IH]; intros Hnd Ha Hb;
    [ destruct Ha | ].
  cbn [List.map fst] in Hnd. apply List.NoDup_cons_iff in Hnd as [Hk Hnd].
  assert (Hnot : forall x, In (key, x) entries -> k <> key).
  { intros x Hx ->. apply Hk.
    change key with (fst (key, x)). apply List.in_map, Hx. }
  destruct Ha as [Ha | Ha], Hb as [Hb | Hb].
  - congruence.
  - exfalso. apply (Hnot _ Hb). congruence.
  - exfalso. apply (Hnot _ Ha). congruence.
  - exact (IH Hnd Ha Hb).
Qed.

(** C8. A model without its info record is never removed by a credential
    or owner segment: whatever the active filters, the verdict on it is
    that of the cloud and region segments alone, and it is in the result of
    [filterModelData] exactly when neither of these two mismatches. *)
Theorem missing_info_fails_open (filters : list string)
  (entries result : list (string * ModelData)) (uuid : string)
  (data : ModelData) :
  List.NoDup (List.map fst entries) ->
  In (uuid, data) entries ->
  modelInfo data = None ->
  filterModelData (Some filters) (Some entries) = Normal (Some result) ->
  exists segs : Segments,
    forEachM collectCallback filters [] = Normal segs
    /\ verdict segs data = Normal (List.existsb (definiteMismatch data) segs)
    /\ (In (uuid, data) result
        <-> List.existsb (definiteMismatch data) segs = false).
Proof.
  intros Hnd Hin Hinfo. unfold filterModelData.
  destruct (forEachM collectCallback filters []) as [segs |];
    [ | discriminate ].
  cbn [bind]. rewrite remove_loop.
  destruct (removedKeys segs entries) as [keys |] eqn:Hkeys;
    [ | discriminate ].
  cbn [bind]. intros [= <-].
  exists segs. split; [ reflexivity | ].
  pose proof (verdict_without_info data Hinfo segs) as Hv.
  split; [ exact Hv | ].
  rewrite deleteKeys_In. cbn [fst]. split.
  - intros [_ Hkept].
    destruct (removedKeys_verdict _ _ _ Hkeys _ Hin) as (remove & Hr & Hk).
    cbn [fst snd] in Hr, Hk. rewrite Hv in Hr. injection Hr as Hr.
    destruct remove; [ | exact Hr ].
    rewrite (Hk eq_refl) in Hkept. discriminate.
  - intros Hfine. split; [ exact Hin | ].
    destruct (arrayIncludes keys uuid) eqn:Hk; [ exfalso | reflexivity ].
    destruct (removedKeys_origin _ _ _ Hkeys _ Hk) as (other & Hother & Hout).
    rewrite (unique_key _ _ _ _ Hnd Hother Hin), Hv, Hfine in Hout.
    discriminate.
Qed.

(** The hypotheses of C8 hold for the first of [twoModels] under filters on
    owner, credential and cloud. *)
Lemma missing_info_fails_open_witness :
  exists segs : Segments,
    forEachM collectCallback ["owner:alice"; "credential:dev"; "cloud:aws"] []
    = Normal segs
    /\ verdict segs withoutInfo
       = Normal (List.existsb (definiteMismatch withoutInfo) segs)
    /\ (In ("uuid-1", withoutInfo) [("uuid-1", withoutInfo)]
        <-> List.existsb (definiteMismatch withoutInfo) segs = false).
Proof.
  apply (missing_info_fails_open
           ["owner:alice"; "credential:dev"; "cloud:aws"] twoModels).
  - constructor.
    + cbn. intros [H | []]. discriminate H.
    + constructor; [ intros [] | constructor ].
  - left. reflexivity.
  - reflexivity.
  - reflexivity.
Defined.

End Filtering.

(** ** Logging out *)

Section LogOut.

Import Root.

Context {Connection BakeryRest StorageRest : Type}.

(** C9. On a state that holds a bakery, the logOut action returns a state
    in which the macaroon store has lost its identity entry and kept every
    other entry, and in which everything else (the rest of the storage and
    of the bakery, and the four other fields of the state) is as before. *)
Theorem logOut_removes_only_identity
  (state : State Connection BakeryRest StorageRest)
  (b : Bakery BakeryRest StorageRest) :
  bakery state = Some b ->
  exists (state' : State Connection BakeryRest StorageRest)
    (b' : Bakery BakeryRest StorageRest),
    rootReducer state LogOut = Normal state'
    /\ bakery state' = Some b'
    /\ macaroons b' !! "identity" = None
    /\ (forall service : string,
          service <> "identity" ->
          macaroons b' !! service = macaroons b !! service)
    /\ storageRest (storage b') = storageRest (storage b)
    /\ bakeryRest b' = bakeryRest b
    /\ controllerConnection state' = controllerConnection state
    /\ visitURL state' = visitURL state
    /\ modelStatusPolling state' = modelStatusPolling state
    /\ collapsibleSidebar state' = collapsibleSidebar state.
Proof.
  intros Hb. unfold rootReducer. rewrite Hb.
  eexists. exists (deleteIdentity b).
  split; [ reflexivity | ].
  split; [ reflexivity | ].
  unfold macaroons, deleteIdentity. cbn.
  split; [ apply lookup_delete_eq | ].
  split; [ intros service Hne; apply lookup_delete_ne; congruence | ].
  repeat split.
Qed.

(** Without a bakery in the state the action throws. *)
Lemma logOut_without_bakery
  (state : State Connection BakeryRest StorageRest) :
  bakery state = None -> rootReducer state LogOut = Throw.
Proof. intros Hb. unfold rootReducer. rewrite Hb. reflexivity. Qed.

End LogOut.

Section LogOutExample.

Import Root.

(** The hypothesis of C9 holds for [loggedIn]. *)
Lemma logOut_removes_only_identity_witness :
  exists (state' : State unit unit unit) (b' : Bakery unit unit),
    rootReducer loggedIn LogOut = Normal state'
    /\ bakery state' = Some b'
    /\ macaroons b' !! "identity" = None
    /\ (forall service : string,
          service <> "identity" ->
          macaroons b' !! service = macaroons loggedInBakery !! service)
    /\ storageRest (storage b') = storageRest (storage loggedInBakery)
    /\ bakeryRest b' = bakeryRest loggedInBakery
    /\ controllerConnection state' = controllerConnection loggedIn
    /\ visitURL state' = visitURL loggedIn
    /\ modelStatusPolling state' = modelStatusPolling loggedIn
    /\ collapsibleSidebar state' = collapsibleSidebar loggedIn.
Proof.
  apply (logOut_removes_only_identity loggedIn loggedInBakery). reflexivity.
Defined.

End LogOutExample.

(** ** Polling *)

Section PollJob.

Import Juju.

Context {FullStatus ModelInfo : Type}.

(** The traces of a job: at most two reads of the signal, the second one
    after the info fetch only. *)
Lemma pollJob_traces (w : World FullStatus ModelInfo) (clock : nat)
  (modelUUID : string) :
  run w clock (pollJob modelUUID)
  = if polling w clock then
      Checked true :: FetchedStatus modelUUID
      :: (match statusOf w modelUUID with
          | Some st =>
              [Wrote (UpdateModelStatus modelUUID st) (polling w (S clock))]
          | None => []
          end
          ++ FetchedInfo modelUUID
          :: match infoOf w modelUUID with
             | Some modelInfo =>
                 Checked (polling w (S (S clock)))
                 :: (if polling w (S (S clock))
                     then [Wrote (UpdateModelInfo modelInfo) true]
                     else [])
             | None => []
             end)
    else [Checked false].
Proof.
  unfold pollJob, fetchAndStoreModelStatus. cbn [run].
  destruct (polling w clock); [ cbn [run] | reflexivity ].
  destruct (statusOf w modelUUID); cbn [run app];
    destruct (infoOf w modelUUID); cbn [run]; try reflexivity;
    destruct (polling w (S (S clock))) eqn:Hlater; cbn [run];
    rewrite ?Hlater; reflexivity.
Qed.

(** The info is never written while polling is disabled. *)
Lemma pollJob_info_write_enabled (w : World FullStatus ModelInfo)
  (clock : nat) (modelUUID : string) (modelInfo : ModelInfo)
  (enabled : bool) :
  In (Wrote (UpdateModelInfo modelInfo) enabled)
    (run w clock (pollJob modelUUID)) ->
  enabled = true.
Proof.
  rewrite pollJob_traces.
  destruct (polling w clock); cbn [In].
  - intros [H | [H | H]]; [ discriminate | discriminate | ].
    apply in_app_or in H as [H | H].
    + destruct (statusOf w modelUUID); cbn [In] in H;
        [ destruct H as [H | []]; discriminate | destruct H ].
    + destruct H as [H | H]; [ discriminate | ].
      destruct (infoOf w modelUUID); [ | destruct H ].
      destruct H as [H | H]; [ discriminate | ].
      destruct (polling w (S (S clock))); [ | destruct H ].
      destruct H as [H | []]. congruence.
  - intros [H | []]. discriminate.
Qed.

(** A job that finds polling disabled when it starts fetches nothing and
    writes nothing. *)
Lemma pollJob_disabled_at_start (w : World FullStatus ModelInfo)
  (clock : nat) (modelUUID : string) :
  polling w clock = false ->
  run w clock (pollJob modelUUID) = [Checked false].
Proof. intros H. rewrite pollJob_traces, H. reflexivity. Qed.

(** The only write a job can make while polling is disabled is that of
    the status, and it makes it whenever polling is disabled during the
    status fetch and the fetch returns a status. *)
Lemma pollJob_disabled_write (w : World FullStatus ModelInfo) (clock : nat)
  (modelUUID : string) (e : Event FullStatus ModelInfo) :
  In e (run w clock (pollJob modelUUID)) /\ isDisabledWrite e = true
  <-> exists st : FullStatus,
        e = Wrote (UpdateModelStatus modelUUID st) false
        /\ statusOf w modelUUID = Some st
        /\ polling w clock = true
        /\ polling w (S clock) = false.
Proof.
  rewrite pollJob_traces. split.
  - intros [Hin Hbad].
    destruct (polling w clock); cbn [In] in Hin.
    + destruct Hin as [<- | [<- | Hin]]; [ discriminate | discriminate | ].
      apply in_app_or in Hin as [Hin | Hin].
      * destruct (statusOf w modelUUID) as [st |]; [ | destruct Hin ].
        destruct Hin as [<- | []]. cbn [isDisabledWrite] in Hbad.
        destruct (polling w (S clock)); [ discriminate | ].
        exists st. repeat split.
      * destruct Hin as [<- | Hin]; [ discriminate | ].
        destruct (infoOf w modelUUID); [ | destruct Hin ].
        destruct Hin as [<- | Hin]; [ discriminate | ].
        destruct (polling w (S (S clock))); [ | destruct Hin ].
        destruct Hin as [<- | []]. discriminate.
    + destruct Hin as [<- | []]. discriminate.
  - intros (st & -> & Hst & Hnow & Hlater).
    rewrite Hnow, Hst, Hlater. split; [ | reflexivity ].
    right. right. left. reflexivity.
Qed.

(** One job is pushed for each model UUID, in order. *)
Lemma fetchAllModelStatuses_jobs (modelUUIDs : list string) :
  List.length (fetchAllModelStatuses FullStatus ModelInfo modelUUIDs)
  = List.length modelUUIDs
  /\ forall (n : nat) (modelUUID : string),
       nth_error modelUUIDs n = Some modelUUID ->
       nth_error (fetchAllModelStatuses FullStatus ModelInfo modelUUIDs) n
       = Some (pollJob modelUUID).
Proof.
  unfold fetchAllModelStatuses. split; [ apply List.length_map | ].
  intros n modelUUID H. rewrite List.nth_error_map, H. reflexivity.
Qed.

End PollJob.

Section PollJobExample.

Import Juju.

(** C5. Polling is enabled when the job starts and is disabled while the
    status is being fetched: the job does not read the signal again when
    that fetch completes and writes the fetched status to the store with
    polling disabled; only the info is held back. *)
Theorem pollJob_writes_status_while_disabled :
  run disabledDuringStatusFetch 0 (pollJob "model-1")
  = [Checked true;
     FetchedStatus "model-1";
     Wrote (UpdateModelStatus "model-1" "full status") false;
     FetchedInfo "model-1";
     Checked false].
Proof. reflexivity. Qed.

End PollJobExample.


(** * Further properties of the same code *)

(** ** The messages of the rollup *)

Module RollupMessages.

(** The status message of an application. *)
Definition applicationInfos (apps : list (string * Application))
  : list string :=
  List.map (fun entry => info (appStatus (snd entry))) apps.

(** The units from the first one whose agent is lost on. *)
Fixpoint fromFirstLost (us : list (string * Unit)) : list (string * Unit) :=
  match us with
  | [] => []
  | entry :: rest =>
      match unitSeverity (snd entry) with
      | Blocked => us
      | _ => fromFirstLost rest
      end
  end.

(** The messages a rollup stores, read off the entity tree: nothing up to
    the first blocked application or lost unit; from a blocked application
    on, its status message and that of every later application; from a
    lost unit on, the agent message of it and of every later unit of its
    application, then the status message of every later application. *)
Fixpoint messagesFrom (apps : list (string * Application)) : list string :=
  match apps with
  | [] => []
  | entry :: rest =>
      match applicationSeverity (snd entry) with
      | Blocked => applicationInfos apps
      | _ =>
          match fromFirstLost (units (snd entry)) with
          | [] => messagesFrom rest
          | lost => unitInfos lost ++ applicationInfos rest
          end
      end
  end.

(** What the loops keep in the other direction: at "blocked" a message has
    been stored. *)
Definition loud (acc : StatusGroupData) : Prop :=
  highestStatus acc = "blocked" -> messages acc <> [].

End RollupMessages.

Section RollupMessagesFacts.

Import RollupMessages.

(** Once the highest status is "blocked", every later application adds its
    own status message and its units are not looked at. *)
Lemma applications_after_blocked (apps : list (string * Application)) :
  forall msgs : list string,
    List.fold_left appCallback apps
      {| highestStatus := "blocked"; messages := msgs |}
    = {| highestStatus := "blocked";
         messages := msgs ++ applicationInfos apps |}.
Proof.
  induction apps as [| [appName app] apps IH]; intros msgs.
  - cbn. rewrite app_nil_r. reflexivity.
  - cbn [List.fold_left]. unfold appCallback at 2.
    cbn [highestStatus messages snd].
    rewrite setHighestStatus_blocked.
    change (checkHighestStatus "blocked") with true. cbn iota.
    rewrite IH. unfold applicationInfos. cbn [List.map snd].
    rewrite <- app_assoc. reflexivity.
Qed.

(** The unit loop started below "blocked". *)
Lemma units_from_below (us : list (string * Unit)) :
  forall (s : Severity) (msgs : list string),
    s <> Blocked ->
    List.fold_left unitCallback us
      {| highestStatus := severityName s; messages := msgs |}
    = match fromFirstLost us with
      | [] =>
          {| highestStatus :=
               severityName
                 (severityMax
                    (maximum (List.map (fun e => unitSeverity (snd e)) us)) s);
             messages := msgs |}
      | lost =>
          {| highestStatus := "blocked";
             messages := msgs ++ unitInfos lost |}
      end.
Proof.
  induction us as [| [unitId unit] us IH]; intros s msgs Hs.
  - cbn. destruct s; reflexivity.
  - cbn [List.fold_left fromFirstLost snd List.map].
    unfold unitCallback at 2. cbn [highestStatus messages snd].
    rewrite classify_unit, setHighestStatus_max, checkHighestStatus_blocked.
    rewrite maximum_cons.
    destruct (unitSeverity unit) eqn:Hunit.
    + destruct s; [ | | congruence ]; cbn [severityMax rank Nat.ltb Nat.leb];
        rewrite IH by discriminate;
        destruct (fromFirstLost us); [ | reflexivity | | reflexivity ];
        destruct (maximum _); reflexivity.
    + destruct s; [ | | congruence ]; cbn [severityMax rank Nat.ltb Nat.leb];
        rewrite IH by discriminate;
        destruct (fromFirstLost us); [ | reflexivity | | reflexivity ];
        destruct (maximum _); reflexivity.
    + assert (Hmax : severityMax Blocked s = Blocked)
        by (destruct s; reflexivity).
      rewrite Hmax. change (severityName Blocked) with "blocked".
      rewrite units_after_blocked. unfold unitInfos. cbn [List.map snd].
      rewrite <- app_assoc. reflexivity.
Qed.

(** Without a lost unit the units stay below "blocked". *)
Lemma no_lost_below (us : list (string * Unit)) (s : Severity) :
  fromFirstLost us = [] ->
  s <> Blocked ->
  severityMax (maximum (List.map (fun e => unitSeverity (snd e)) us)) s
  <> Blocked.
Proof.
  intros Hlost Hs. induction us as [| entry us IH].
  - destruct s; [ discriminate | discriminate | congruence ].
  - cbn [fromFirstLost] in Hlost. cbn [List.map]. rewrite maximum_cons.
    destruct (unitSeverity (snd entry)); [ | | discriminate ];
      specialize (IH Hlost); destruct (maximum _), s; cbn in IH |- *;
      congruence.
Qed.

(** The application loop started below "blocked". *)
Lemma applications_from_below (apps : list (string * Application)) :
  forall (s : Severity) (msgs : list string),
    s <> Blocked ->
    messages
      (List.fold_left appCallback apps
         {| highestStatus := severityName s; messages := msgs |})
    = (msgs ++ messagesFrom apps)%list.
Proof.
  induction apps as [| [appName app] apps IH]; intros s msgs Hs.
  - cbn. rewrite app_nil_r. reflexivity.
  - cbn [List.fold_left messagesFrom snd].
    unfold appCallback at 2. cbn [highestStatus messages snd].
    rewrite classify_application, setHighestStatus_max.
    rewrite checkHighestStatus_blocked.
    assert (Hbelow : applicationSeverity app <> Blocked ->
                     severityMax (applicationSeverity app) s <> Blocked).
    { destruct (applicationSeverity app), s; cbn; congruence. }
    destruct (applicationSeverity app) eqn:Happ.
    + destruct (severityMax Running s) eqn:Hmax;
        [ | | exfalso; apply Hbelow; [ discriminate | reflexivity ] ];
        rewrite units_from_below by discriminate;
        (destruct (fromFirstLost (units app)) eqn:Hlost;
         [ apply IH, no_lost_below; [ exact Hlost | discriminate ]
         | rewrite applications_after_blocked; cbn [messages];
           rewrite <- app_assoc; reflexivity ]).
    + destruct (severityMax Alert s) eqn:Hmax;
        [ | | exfalso; apply Hbelow; [ discriminate | reflexivity ] ];
        rewrite units_from_below by discriminate;
        (destruct (fromFirstLost (units app)) eqn:Hlost;
         [ apply IH, no_lost_below; [ exact Hlost | discriminate ]
         | rewrite applications_after_blocked; cbn [messages];
           rewrite <- app_assoc; reflexivity ]).
    + assert (Hmax : severityMax Blocked s = Blocked)
        by (destruct s; reflexivity).
      rewrite Hmax. change (severityName Blocked) with "blocked".
      rewrite applications_after_blocked. cbn [messages].
      unfold applicationInfos. cbn [List.map snd].
      rewrite <- app_assoc. reflexivity.
Qed.

(** X1. The messages of a rollup are those read off the entity tree by
    [messagesFrom]. *)
Theorem rollup_messages (m : ModelData) :
  messages (getModelStatusGroupData m) = messagesFrom (applications m).
Proof.
  unfold getModelStatusGroupData.
  change (List.nth 0 statusOrder "") with (severityName Running).
  rewrite applications_from_below by discriminate. reflexivity.
Qed.

Lemma unitCallback_loud (acc : StatusGroupData) (entry : string * Unit) :
  loud (unitCallback acc entry).
Proof.
  unfold loud, unitCallback.
  set (highest := setHighestStatus _ (highestStatus acc)).
  rewrite checkHighestStatus_eqb.
  destruct (String.eqb_spec highest "blocked") as [Heq | Hne];
    cbn [highestStatus messages]; [ | congruence ].
  intros _ Hnil. apply app_eq_nil in Hnil as [_ Hnil]. discriminate.
Qed.

Lemma units_loud (us : list (string * Unit)) :
  forall acc : StatusGroupData,
    loud acc -> loud (List.fold_left unitCallback us acc).
Proof.
  induction us as [| entry us IH]; intros acc Hacc; [ exact Hacc | ].
  cbn [List.fold_left]. apply IH, unitCallback_loud.
Qed.

Lemma appCallback_loud (acc : StatusGroupData)
  (entry : string * Application) :
  loud (appCallback acc entry).
Proof.
  unfold appCallback.
  set (highest := setHighestStatus _ (highestStatus acc)).
  rewrite checkHighestStatus_eqb.
  destruct (String.eqb_spec highest "blocked") as [Heq | Hne].
  - unfold loud. cbn [highestStatus messages].
    intros _ Hnil. apply app_eq_nil in Hnil as [_ Hnil]. discriminate.
  - apply units_loud. unfold loud. cbn [highestStatus]. congruence.
Qed.

(** X2. A rollup carries no message exactly when its highest status is
    below "blocked". *)
Theorem messages_empty_iff_below_blocked (m : ModelData) :
  messages (getModelStatusGroupData m) = []
  <-> highestStatus (getModelStatusGroupData m) <> "blocked".
Proof.
  split; [ | apply messages_only_when_blocked ].
  intros Hnil Hblocked. revert Hblocked Hnil.
  unfold getModelStatusGroupData.
  generalize (applications m). intros apps.
  assert (H : forall acc, loud acc ->
                loud (List.fold_left appCallback apps acc)).
  { induction apps as [| entry apps IH]; intros acc Hacc; [ exact Hacc | ].
    cbn [List.fold_left]. apply IH, appCallback_loud. }
  apply H. unfold loud. cbn [highestStatus]. discriminate.
Qed.

Lemma indexOfFrom_lower (x : string) (arr : list string) :
  forall i : Z, (0 <= i)%Z -> (-1 <= indexOfFrom x arr i)%Z.
Proof.
  induction arr as [| y arr IH]; intros i Hi; cbn [indexOfFrom]; [ lia | ].
  destruct (String.eqb y x); [ lia | apply IH; lia ].
Qed.

Lemma indexOfFrom_absent (x : string) (arr : list string) :
  ~ In x arr -> forall i : Z, indexOfFrom x arr i = (-1)%Z.
Proof.
  induction arr as [| y arr IH]; intros Hx i; cbn [indexOfFrom];
    [ reflexivity | ].
  destruct (String.eqb_spec y x) as [-> | _].
  - exfalso. apply Hx. left. reflexivity.
  - apply IH. intros Hin. apply Hx. right. exact Hin.
Qed.

(** An entity status that is not one of the three of [statusOrder] never
    replaces the highest status, whatever that is. *)
Theorem setHighestStatus_unknown (entityStatus highestStatus : string) :
  ~ In entityStatus statusOrder ->
  setHighestStatus entityStatus highestStatus = highestStatus.
Proof.
  intros Hunknown. unfold setHighestStatus, indexOf.
  rewrite (indexOfFrom_absent _ _ Hunknown).
  pose proof (indexOfFrom_lower highestStatus statusOrder 0 (Z.le_refl 0)).
  destruct (Z.gtb_spec (-1) (indexOfFrom highestStatus statusOrder 0));
    [ lia | reflexivity ].
Qed.

End RollupMessagesFacts.

(** ** The tag helpers *)

Section TagHelpers.

Lemma replace_at_start (pat rep s : string) :
  replace pat rep (pat ++ s) = rep ++ s.
Proof.
  destruct pat as [| a pat].
  - destruct s; reflexivity.
  - change (String a pat ++ s) with (String a (pat ++ s)).
    cbn [replace].
    change (String a (pat ++ s)) with (String a pat ++ s).
    rewrite prefix_append, dropChars_append. reflexivity.
Qed.

Lemma replace_absent (pat rep : string) :
  forall s : string, includes pat s = false -> replace pat rep s = s.
Proof.
  induction s as [| c s IH]; cbn [includes replace]; intros H.
  - rewrite H. reflexivity.
  - apply orb_false_iff in H as [Hp Hs]. rewrite Hp, (IH Hs). reflexivity.
Qed.

Lemma includes_char_dropChars (a : ascii) :
  forall (n : nat) (s : string),
    includes (String a "") s = false ->
    includes (String a "") (dropChars n s) = false.
Proof.
  induction n as [| n IH]; intros s H; [ destruct s; exact H | ].
  destruct s as [| c s]; [ exact H | ].
  cbn [dropChars]. apply IH.
  rewrite includes_char_cons in H. apply orb_false_iff in H as [_ H]. exact H.
Qed.

(** Deleting a pattern brings no character in. *)
Lemma includes_char_replace (a : ascii) (pat : string) :
  forall s : string,
    includes (String a "") s = false ->
    includes (String a "") (replace pat "" s) = false.
Proof.
  induction s as [| c s IH]; intros H.
  - cbn [replace]. destruct (String.prefix pat ""); [ | reflexivity ].
    change ("" ++ dropChars (String.length pat) "")
      with (dropChars (String.length pat) "").
    apply includes_char_dropChars, H.
  - cbn [replace]. destruct (String.prefix pat (String c s)).
    + change ("" ++ dropChars (String.length pat) (String c s))
        with (dropChars (String.length pat) (String c s)).
      apply includes_char_dropChars, H.
    + rewrite includes_char_cons in H |- *.
      apply orb_false_iff in H as [Hc Hs]. rewrite Hc, (IH Hs). reflexivity.
Qed.

(** The first piece of a split at a character is free of it. *)
Lemma first_piece_without (a : ascii) :
  forall s : string,
    includes (String a "") (first (splitFrom (String a "") 0 s)) = false.
Proof.
  induction s as [| c s IH]; [ reflexivity | ].
  cbn [splitFrom String.prefix].
  destruct (ascii_dec a c) as [-> | Hne].
  - destruct s; reflexivity.
  - destruct (splitFrom (String a "") 0 s) as [| piece pieces].
    + cbn [first List.hd]. rewrite includes_char_cons.
      destruct (ascii_dec a c); [ contradiction | reflexivity ].
    + cbn [first List.hd] in IH |- *. rewrite includes_char_cons, IH.
      destruct (ascii_dec a c); [ contradiction | reflexivity ].
Qed.

(** X3. The owner name never holds an "@": whatever the tag,
    [extractOwnerName] cuts it at the first "@". For a tag
    "user-<name>@<domain>" whose name has no "@" it returns the name, and
    for a tag "user-<name>" without domain as well. *)
Theorem extractOwnerName_cuts_domain :
  (forall tag : string, includes "@" (extractOwnerName tag) = false)
  /\ (forall name domain : string,
        includes "@" name = false ->
        extractOwnerName ("user-" ++ name ++ "@" ++ domain) = name)
  /\ (forall name : string,
        includes "@" name = false ->
        extractOwnerName ("user-" ++ name) = name).
Proof.
  split; [ | split ].
  - intros tag. unfold extractOwnerName, split.
    apply includes_char_replace, first_piece_without.
  - intros name domain Hname. unfold extractOwnerName, split.
    change ("user-" ++ name ++ "@" ++ domain)
      with (String "u" (String "s" (String "e" (String "r" (String "-"
              (name ++ String "@" domain)))))).
    change (String "u" (String "s" (String "e" (String "r" (String "-"
              (name ++ String "@" domain))))))
      with (("user-" ++ name) ++ String "@" domain).
    rewrite splitFrom_char; [ apply (replace_at_start "user-" "" name) | ].
    exact Hname.
  - intros name Hname. unfold extractOwnerName, split.
    rewrite splitFrom_absent; [ apply (replace_at_start "user-" "" name) | ].
    exact Hname.
Qed.

(** The hypotheses of X3 hold for "pizza". *)
Lemma extractOwnerName_cuts_domain_witness :
  includes "@" (extractOwnerName "user-pizza@external@x") = false
  /\ extractOwnerName ("user-" ++ "pizza" ++ "@" ++ "external") = "pizza"
  /\ extractOwnerName ("user-" ++ "pizza") = "pizza".
Proof.
  destruct extractOwnerName_cuts_domain as (Hfree & Hdomain & Hplain).
  split; [ apply Hfree | ].
  split; [ apply Hdomain; reflexivity | apply Hplain; reflexivity ].
Defined.

(** X4. [extractCloudName] removes the prefix of a tag "cloud-<name>", and
    only the first "cloud-": the name comes out whatever it holds. A tag
    without "cloud-" is returned as it is. *)
Theorem extractCloudName_strips_prefix :
  (forall name : string, extractCloudName ("cloud-" ++ name) = name)
  /\ (forall tag : string,
        includes "cloud-" tag = false -> extractCloudName tag = tag).
Proof.
  split.
  - intros name. apply (replace_at_start "cloud-" "" name).
  - intros tag H. apply replace_absent, H.
Qed.

(** The hypothesis of X4 holds for the tag "aws". *)
Lemma extractCloudName_strips_prefix_witness :
  extractCloudName ("cloud-" ++ "cloud-nine") = "cloud-nine"
  /\ extractCloudName "aws" = "aws".
Proof.
  destruct extractCloudName_strips_prefix as (Hprefix & Hplain).
  split; [ apply Hprefix | apply Hplain; reflexivity ].
Defined.

End TagHelpers.

(** ** Looking a model up by name ([getModelUUIDByName]) *)

Module ModelLookup.

(** The two fields of [modelData[uuid].info] the lookup reads. *)
Record NamedInfo : Type := {
  name : string;
  ownerTag : string
}.

(** The model data as the lookup sees it: for each UUID, in enumeration
    order, the [info] of the entry if it has one. *)
Abbreviation NamedStore := (option (list (string * option NamedInfo))).

(** [if (name.includes("/")) { [owner, modelName] = name.split("/") } else
    { modelName = name }]: the owner and the model name, each [None] while
    [null] or [undefined]. *)
Definition parseName (fullName : string) : option string * option string :=
  if includes "/" fullName
  then (nth_error (split "/" fullName) 0, nth_error (split "/" fullName) 1)
  else (None, Some fullName).

(** Truthiness of a value that is a string, [null] or [undefined]. *)
Definition truthy (v : option string) : bool :=
  match v with
  | Some (String _ _) => true
  | _ => false
  end.

(** The [for .. in] loop: the first UUID whose info passes the tests. *)
Fixpoint searchByName (owner modelName : option string)
  (entries : list (string * option NamedInfo)) : option string :=
  match entries with
  | [] => None
  | (uuid, entryInfo) :: rest =>
      match entryInfo with
      | Some modelEntry =>
          if sameValue (Some (name modelEntry)) modelName then
            match owner with
            | Some (String c o) =>
                if String.eqb (ownerTag modelEntry) ("user-" ++ String c o)
                then Some uuid
                else searchByName owner modelName rest
            | _ => Some uuid
            end
          else searchByName owner modelName rest
      | None => searchByName owner modelName rest
      end
  end.

Definition getModelUUIDByName (fullName : string) (modelData : NamedStore)
  : option string :=
  let owner := fst (parseName fullName) in
  let modelName := snd (parseName fullName) in
  match modelData with
  | Some entries => searchByName owner modelName entries
  | None => None
  end.

(** An entry whose info carries the model name. *)
Definition hasName (modelName : string) (entryInfo : option NamedInfo)
  : bool :=
  match entryInfo with
  | Some modelEntry => String.eqb (name modelEntry) modelName
  | None => false
  end.

(** An entry whose info carries the model name and the tag of the owner. *)
Definition hasNameAndOwner (owner modelName : string)
  (entryInfo : option NamedInfo) : bool :=
  match entryInfo with
  | Some modelEntry =>
      String.eqb (name modelEntry) modelName
      && String.eqb (ownerTag modelEntry) ("user-" ++ owner)
  | None => false
  end.

(** The key of the first entry whose value passes [test]. *)
Definition firstKey {V : Type} (test : V -> bool) (entries : list (string * V))
  : option string :=
  option_map fst (List.find (fun e => test (snd e)) entries).

End ModelLookup.

Section ModelLookupFacts.

Import ModelLookup.

Lemma searchByName_unowned (owner : option string) (modelName : string)
  (entries : list (string * option NamedInfo)) :
  truthy owner = false ->
  searchByName owner (Some modelName) entries
  = firstKey (hasName modelName) entries.
Proof.
  intros Howner.
  induction entries as [| [uuid [modelEntry |]] entries IH];
    [ reflexivity | | exact IH ].
  cbn [searchByName sameValue]. unfold firstKey. cbn [List.find snd hasName].
  destruct (String.eqb (name modelEntry) modelName); [ | exact IH ].
  destruct owner as [[| c o] |]; [ reflexivity | discriminate | reflexivity ].
Qed.

Lemma searchByName_owned (owner modelName : string)
  (entries : list (string * option NamedInfo)) :
  owner <> "" ->
  searchByName (Some owner) (Some modelName) entries
  = firstKey (hasNameAndOwner owner modelName) entries.
Proof.
  intros Howner. destruct owner as [| c o]; [ congruence | ].
  induction entries as [| [uuid [modelEntry |]] entries IH];
    [ reflexivity | | exact IH ].
  cbn [searchByName sameValue]. unfold firstKey.
  cbn [List.find snd hasNameAndOwner].
  destruct (String.eqb (name modelEntry) modelName); [ | exact IH ].
  cbn [andb].
  destruct (String.eqb (ownerTag modelEntry) ("user-" ++ String c o));
    [ reflexivity | exact IH ].
Qed.

Lemma parseName_plain (modelName : string) :
  includes "/" modelName = false ->
  parseName modelName = (None, Some modelName).
Proof. intros H. unfold parseName. rewrite H. reflexivity. Qed.

Lemma parseName_owned (owner modelName : string) :
  includes "/" owner = false ->
  includes "/" modelName = false ->
  parseName (owner ++ "/" ++ modelName) = (Some owner, Some modelName).
Proof.
  intros Howner Hname. unfold parseName, split.
  change (owner ++ "/" ++ modelName) with (owner ++ String "/" modelName).
  rewrite includes_char_append, includes_char_cons.
  destruct (ascii_dec "/" "/") as [_ | Hne]; [ | congruence ].
  rewrite orb_true_r.
  rewrite (splitFrom_char "/" _ _ Howner), (splitFrom_absent _ _ Hname).
  reflexivity.
Qed.

(** X5. [getModelUUIDByName] returns the UUID of the first entry, in
    enumeration order, whose info has the model name; when the name is
    given as "<owner>/<model>" with a non-empty owner the entry must also
    have the owner tag "user-<owner>", and an empty owner ("/<model>") is
    ignored. It returns [null] when no entry passes, and for a [null]
    store. *)
Theorem getModelUUIDByName_first_match :
  (forall (modelName : string) (entries : list (string * option NamedInfo)),
      includes "/" modelName = false ->
      getModelUUIDByName modelName (Some entries)
      = firstKey (hasName modelName) entries)
  /\ (forall (owner modelName : string)
        (entries : list (string * option NamedInfo)),
        includes "/" owner = false ->
        includes "/" modelName = false ->
        owner <> "" ->
        getModelUUIDByName (owner ++ "/" ++ modelName) (Some entries)
        = firstKey (hasNameAndOwner owner modelName) entries)
  /\ (forall (modelName : string) (entries : list (string * option NamedInfo)),
        includes "/" modelName = false ->
        getModelUUIDByName ("/" ++ modelName) (Some entries)
        = firstKey (hasName modelName) entries)
  /\ (forall fullName : string, getModelUUIDByName fullName None = None).
Proof.
  split; [ | split; [ | split ] ].
  - intros modelName entries H. unfold getModelUUIDByName.
    rewrite (parseName_plain _ H). cbn [fst snd].
    apply searchByName_unowned. reflexivity.
  - intros owner modelName entries Howner Hname Hne.
    unfold getModelUUIDByName.
    rewrite (parseName_owned _ _ Howner Hname). cbn [fst snd].
    apply searchByName_owned, Hne.
  - intros modelName entries H. unfold getModelUUIDByName.
    change ("/" ++ modelName) with ("" ++ "/" ++ modelName).
    rewrite (parseName_owned "" modelName eq_refl H). cbn [fst snd].
    apply searchByName_unowned. reflexivity.
  - reflexivity.
Qed.

(** The hypotheses of X5 hold for the model "web" of owner "pizza". *)
Lemma getModelUUIDByName_first_match_witness :
  getModelUUIDByName "web"
    (Some [("uuid-1", None);
           ("uuid-2", Some {| name := "web"; ownerTag := "user-bob" |});
           ("uuid-3", Some {| name := "web"; ownerTag := "user-pizza" |})])
  = Some "uuid-2"
  /\ getModelUUIDByName ("pizza" ++ "/" ++ "web")
       (Some [("uuid-1", None);
              ("uuid-2", Some {| name := "web"; ownerTag := "user-bob" |});
              ("uuid-3", Some {| name := "web"; ownerTag := "user-pizza" |})])
     = Some "uuid-3"
  /\ getModelUUIDByName ("/" ++ "web")
       (Some [("uuid-2", Some {| name := "web"; ownerTag := "user-bob" |})])
     = Some "uuid-2".
Proof.
  destruct getModelUUIDByName_first_match as (Hplain & Howned & Hempty & _).
  split; [ rewrite Hplain; reflexivity | ].
  split; [ rewrite Howned; [ reflexivity .. | discriminate ] | ].
  rewrite Hempty; reflexivity.
Defined.

End ModelLookupFacts.

(** ** Grouping by owner, by cloud, and grouping units and applications *)

Module Groupings.

(** [grouped]: a key to the models pushed for it, in insertion order
    (where JavaScript enumerates integer-like keys first; the properties
    below read the object by key). *)
Abbreviation Groups := (list (string * list ModelData)).

(** [if (!grouped[key]) grouped[key] = []; grouped[key].push(model)] for
    an own or new key. *)
Fixpoint pushGroup (key : string) (m : ModelData) (grouped : Groups)
  : Groups :=
  match grouped with
  | [] => [(key, [m])]
  | (k, ms) :: rest =>
      if String.eqb k key
      then (k, (ms ++ [m])%list) :: rest
      else (k, ms) :: pushGroup key m rest
  end.

(** The same on the object: a key that names a member inherited from
    [Object.prototype] yields a truthy value without [push]. *)
Definition pushByKey (key : string) (m : ModelData) (grouped : Groups)
  : Completion Groups :=
  if arrayIncludes Selectors.objectPrototypeKeys key
  then Throw
  else Normal (pushGroup key m grouped).

(** The body of the [for .. in] loop of [groupModelsByOwner]. *)
Definition ownerCallback (grouped : Groups) (entry : string * ModelData)
  : Completion Groups :=
  let m := snd entry in
  match modelInfo m with
  | Some i =>
      let owner := extractOwnerName (Info.ownerTag i) in
      pushByKey owner m grouped
  | None => Normal grouped
  end.

Definition groupModelsByOwner (modelData : ModelDataStore)
  : Completion Groups :=
  match modelData with
  | None => Normal []
  | Some entries => forEachM ownerCallback entries []
  end.

(** The body of the [for .. in] loop of [groupModelsByCloud]. *)
Definition cloudCallback (grouped : Groups) (entry : string * ModelData)
  : Completion Groups :=
  let m := snd entry in
  match modelInfo m with
  | Some i =>
      let cloud := extractCloudName (Info.cloudTag i) in
      pushByKey cloud m grouped
  | None => Normal grouped
  end.

Definition groupModelsByCloud (modelData : ModelDataStore)
  : Completion Groups :=
  match modelData with
  | None => Normal []
  | Some entries => forEachM cloudCallback entries []
  end.

(** [{blocked: [], alert: [], running: []}] holding units or applications. *)
Record Buckets (A : Type) : Type := {
  blocked : list A;
  alert : list A;
  running : list A
}.
Arguments blocked {A} b.
Arguments alert {A} b.
Arguments running {A} b.
Arguments Build_Buckets {A} blocked alert running.

(** [grouped[key].push(x)]. *)
Definition pushTo {A : Type} (grouped : Buckets A) (key : string) (x : A)
  : Completion (Buckets A) :=
  if String.eqb key "blocked" then
    Normal {| blocked := blocked grouped ++ [x];
              alert := alert grouped;
              running := running grouped |}
  else if String.eqb key "alert" then
    Normal {| blocked := blocked grouped;
              alert := alert grouped ++ [x];
              running := running grouped |}
  else if String.eqb key "running" then
    Normal {| blocked := blocked grouped;
              alert := alert grouped;
              running := running grouped ++ [x] |}
  else Throw.

(** The three nested [for .. in] loops of [groupUnitsByStatus]. *)
Definition unitsOfApplication (grouped : Buckets Unit)
  (entry : string * Application) : Completion (Buckets Unit) :=
  forEachM
    (fun grouped unitEntry =>
       let unit := snd unitEntry in
       pushTo grouped (groupStatus (getUnitStatusGroup unit)) unit)
    (units (snd entry)) grouped.

Definition unitsOfModel (grouped : Buckets Unit) (entry : string * ModelData)
  : Completion (Buckets Unit) :=
  forEachM unitsOfApplication (applications (snd entry)) grouped.

Definition groupUnitsByStatus (modelData : ModelDataStore)
  : Completion (Buckets Unit) :=
  let grouped := {| blocked := []; alert := []; running := [] |} in
  match modelData with
  | None => Normal grouped
  | Some entries => forEachM unitsOfModel entries grouped
  end.

(** The two nested [for .. in] loops of [groupApplicationsByStatus]. *)
Definition applicationsOfModel (grouped : Buckets Application)
  (entry : string * ModelData) : Completion (Buckets Application) :=
  forEachM
    (fun grouped appEntry =>
       let application := snd appEntry in
       pushTo grouped (groupStatus (getApplicationStatusGroup application))
         application)
    (applications (snd entry)) grouped.

Definition groupApplicationsByStatus (modelData : ModelDataStore)
  : Completion (Buckets Application) :=
  let grouped := {| blocked := []; alert := []; running := [] |} in
  match modelData with
  | None => Normal grouped
  | Some entries => forEachM applicationsOfModel entries grouped
  end.

(** [grouped[key]]: the models of a group, [None] for a key never pushed. *)
Fixpoint lookupGroup (key : string) (grouped : Groups)
  : option (list ModelData) :=
  match grouped with
  | [] => None
  | (k, ms) :: rest =>
      if String.eqb k key then Some ms else lookupGroup key rest
  end.

(** The models with an info record whose owner is [key], in order. *)
Definition ownedBy (key : string) (entries : list (string * ModelData))
  : list ModelData :=
  List.filter
    (fun m =>
       match modelInfo m with
       | Some i => String.eqb (extractOwnerName (Info.ownerTag i)) key
       | None => false
       end)
    (List.map snd entries).

(** The models with an info record whose cloud is [key], in order. *)
Definition onCloud (key : string) (entries : list (string * ModelData))
  : list ModelData :=
  List.filter
    (fun m =>
       match modelInfo m with
       | Some i => String.eqb (extractCloudName (Info.cloudTag i)) key
       | None => false
       end)
    (List.map snd entries).

(** A group once found, extended by later models. *)
Definition extendGroup (found : option (list ModelData))
  (later : list ModelData) : option (list ModelData) :=
  match found, later with
  | None, [] => None
  | None, _ => Some later
  | Some ms, _ => Some (ms ++ later)%list
  end.

(** All applications of the models, and all their units, in loop order. *)
Definition allApplications (entries : list (string * ModelData))
  : list Application :=
  List.flat_map (fun e => List.map snd (applications (snd e))) entries.

Definition allUnits (entries : list (string * ModelData)) : list Unit :=
  List.flat_map (fun app => List.map snd (units app))
    (allApplications entries).

Definition unitIs (s : Severity) (unit : Unit) : bool :=
  String.eqb (groupStatus (getUnitStatusGroup unit)) (severityName s).

Definition applicationIs (s : Severity) (app : Application) : bool :=
  String.eqb (groupStatus (getApplicationStatusGroup app)) (severityName s).

End Groupings.

Section GroupByKey.

Import Groupings.

(** The key of a model with info: the owner or the cloud. *)
Variable keyOf : Info.t -> string.

Let keyed (key : string) (entries : list (string * ModelData))
  : list ModelData :=
  List.filter
    (fun m =>
       match modelInfo m with
       | Some i => String.eqb (keyOf i) key
       | None => false
       end)
    (List.map snd entries).

Let callback (grouped : Groups) (entry : string * ModelData)
  : Completion Groups :=
  match modelInfo (snd entry) with
  | Some i => pushByKey (keyOf i) (snd entry) grouped
  | None => Normal grouped
  end.

Lemma lookupGroup_pushGroup (key k : string) (m : ModelData) :
  forall grouped : Groups,
    lookupGroup key (pushGroup k m grouped)
    = if String.eqb k key
      then extendGroup (lookupGroup key grouped) [m]
      else lookupGroup key grouped.
Proof.
  induction grouped as [| [k' ms] grouped IH].
  - cbn [pushGroup lookupGroup]. destruct (String.eqb k key); reflexivity.
  - cbn [pushGroup lookupGroup].
    destruct (String.eqb_spec k' k) as [-> | Hne].
    + cbn [lookupGroup]. destruct (String.eqb k key); reflexivity.
    + cbn [lookupGroup]. rewrite IH.
      destruct (String.eqb_spec k' key) as [-> | _]; [ | reflexivity ].
      destruct (String.eqb_spec k key) as [-> | _]; congruence.
Qed.

Lemma extendGroup_step (found : option (list ModelData)) (m : ModelData)
  (later : list ModelData) :
  extendGroup (extendGroup found [m]) later = extendGroup found (m :: later).
Proof.
  destruct found as [ms |]; cbn [extendGroup].
  - rewrite <- app_assoc. reflexivity.
  - reflexivity.
Qed.

(** The grouping loop: without an inherited name among the keys it does
    not throw, and each group is extended by the later models of its key. *)
Lemma group_by_key_loop (entries : list (string * ModelData)) :
  (forall (e : string * ModelData) (i : Info.t),
      In e entries -> modelInfo (snd e) = Some i ->
      arrayIncludes Selectors.objectPrototypeKeys (keyOf i) = false) ->
  forall acc : Groups,
  exists grouped : Groups,
    forEachM callback entries acc = Normal grouped
    /\ forall key : string,
         lookupGroup key grouped
         = extendGroup (lookupGroup key acc) (keyed key entries).
Proof.
  induction entries as [| entry entries IH]; intros Hkeys acc.
  - exists acc. split; [ reflexivity | ].
    intros key. destruct (lookupGroup key acc); cbn; [ | reflexivity ].
    rewrite app_nil_r. reflexivity.
  - assert (Hrest : forall e i, In e entries -> modelInfo (snd e) = Some i ->
        arrayIncludes Selectors.objectPrototypeKeys (keyOf i) = false).
    { intros e i He. apply Hkeys. right. exact He. }
    cbn [forEachM]. unfold callback at 1, keyed. cbn [List.map List.filter].
    destruct (modelInfo (snd entry)) as [i |] eqn:Hinfo.
    + unfold pushByKey. rewrite (Hkeys entry i (or_introl eq_refl) Hinfo).
      cbn [bind].
      destruct (IH Hrest (pushGroup (keyOf i) (snd entry) acc))
        as (grouped & Hloop & Hlookup).
      exists grouped. split; [ exact Hloop | ].
      intros key. rewrite Hlookup, lookupGroup_pushGroup.
      destruct (String.eqb (keyOf i) key); [ | reflexivity ].
      apply extendGroup_step.
    + cbn [bind]. apply IH, Hrest.
Qed.

(** A model whose key is an inherited name makes the loop throw. *)
Lemma group_by_key_throws (entries : list (string * ModelData))
  (e : string * ModelData) (i : Info.t) :
  In e entries ->
  modelInfo (snd e) = Some i ->
  arrayIncludes Selectors.objectPrototypeKeys (keyOf i) = true ->
  forall acc : Groups, forEachM callback entries acc = Throw.
Proof.
  intros Hin Hinfo Hkey acc.
  apply forEachM_throws with (x := e); [ | exact Hin ].
  intros grouped. unfold callback, pushByKey. rewrite Hinfo, Hkey.
  reflexivity.
Qed.

End GroupByKey.

Section GroupingFacts.

Import Groupings.

(** X6. [groupModelsByOwner] skips the models without info record and
    puts every other model, in order, in the group of its owner name: when
    no owner name is a name inherited from [Object.prototype], its result
    holds for each owner exactly the models with that owner, and no group
    for an owner no model has. A model whose owner name is such an
    inherited name ("constructor", "toString", ...) makes it throw. *)
Theorem groupModelsByOwner_groups (entries : list (string * ModelData)) :
  ((forall (e : string * ModelData) (i : Info.t),
       In e entries -> modelInfo (snd e) = Some i ->
       arrayIncludes Selectors.objectPrototypeKeys
         (extractOwnerName (Info.ownerTag i)) = false) ->
   exists grouped : Groups,
     groupModelsByOwner (Some entries) = Normal grouped
     /\ forall owner : string,
          lookupGroup owner grouped
          = match ownedBy owner entries with
            | [] => None
            | models => Some models
            end)
  /\ (forall (e : string * ModelData) (i : Info.t),
        In e entries -> modelInfo (snd e) = Some i ->
        arrayIncludes Selectors.objectPrototypeKeys
          (extractOwnerName (Info.ownerTag i)) = true ->
        groupModelsByOwner (Some entries) = Throw).
Proof.
  split.
  - intros Hkeys.
    destruct (group_by_key_loop
                (fun i => extractOwnerName (Info.ownerTag i)) entries Hkeys [])
      as (grouped & Hloop & Hlookup).
    exists grouped. split; [ exact Hloop | ].
    intros owner. rewrite Hlookup. cbn [lookupGroup extendGroup].
    unfold ownedBy. destruct (List.filter _ _); reflexivity.
  - intros e i Hin Hinfo Hkey.
    exact (group_by_key_throws
             (fun i => extractOwnerName (Info.ownerTag i)) entries e i
             Hin Hinfo Hkey []).
Qed.

(** X7. [groupModelsByCloud] does the same with the cloud name of the
    info record. *)
Theorem groupModelsByCloud_groups (entries : list (string * ModelData)) :
  ((forall (e : string * ModelData) (i : Info.t),
       In e entries -> modelInfo (snd e) = Some i ->
       arrayIncludes Selectors.objectPrototypeKeys
         (extractCloudName (Info.cloudTag i)) = false) ->
   exists grouped : Groups,
     groupModelsByCloud (Some entries) = Normal grouped
     /\ forall cloud : string,
          lookupGroup cloud grouped
          = match onCloud cloud entries with
            | [] => None
            | models => Some models
            end)
  /\ (forall (e : string * ModelData) (i : Info.t),
        In e entries -> modelInfo (snd e) = Some i ->
        arrayIncludes Selectors.objectPrototypeKeys
          (extractCloudName (Info.cloudTag i)) = true ->
        groupModelsByCloud (Some entries) = Throw).
Proof.
  split.
  - intros Hkeys.
    destruct (group_by_key_loop
                (fun i => extractCloudName (Info.cloudTag i)) entries Hkeys [])
      as (grouped & Hloop & Hlookup).
    exists grouped. split; [ exact Hloop | ].
    intros cloud. rewrite Hlookup. cbn [lookupGroup extendGroup].
    unfold onCloud. destruct (List.filter _ _); reflexivity.
  - intros e i Hin Hinfo Hkey.
    exact (group_by_key_throws
             (fun i => extractCloudName (Info.cloudTag i)) entries e i
             Hin Hinfo Hkey []).
Qed.

(** A model whose owner is called like a member every object inherits. *)
Definition ownedByConstructor : ModelData :=
  {| model := {| StatusModel.cloudTag := "cloud-aws";
                 StatusModel.region := "us-east-1" |};
     modelInfo :=
       Some {| Info.ownerTag := "user-constructor@external";
               Info.cloudTag := "cloud-toString";
               Info.cloudRegion := "us-east-1";
               Info.cloudCredentialTag :=
                 "cloudcred-aws_constructor@external_prod" |};
     applications := [] |}.

(** The hypotheses of X6 hold for [twoModels], and those of its second
    part for [ownedByConstructor]. *)
Lemma groupModelsByOwner_groups_witness :
  (exists grouped : Groups,
     groupModelsByOwner (Some twoModels) = Normal grouped
     /\ forall owner : string,
          lookupGroup owner grouped
          = match ownedBy owner twoModels with
            | [] => None
            | models => Some models
            end)
  /\ groupModelsByOwner (Some [("uuid-9", ownedByConstructor)]) = Throw.
Proof.
  split.
  - apply (proj1 (groupModelsByOwner_groups twoModels)).
    intros e i [<- | [<- | []]] Hinfo; cbn in Hinfo;
      [ discriminate | injection Hinfo as <-; reflexivity ].
  - apply (proj2 (groupModelsByOwner_groups [("uuid-9", ownedByConstructor)])
             ("uuid-9", ownedByConstructor)
             {| Info.ownerTag := "user-constructor@external";
                Info.cloudTag := "cloud-toString";
                Info.cloudRegion := "us-east-1";
                Info.cloudCredentialTag :=
                  "cloudcred-aws_constructor@external_prod" |});
      [ left; reflexivity | reflexivity | reflexivity ].
Defined.

(** The hypotheses of X7 hold for [twoModels], and those of its second
    part for [ownedByConstructor]. *)
Lemma groupModelsByCloud_groups_witness :
  (exists grouped : Groups,
     groupModelsByCloud (Some twoModels) = Normal grouped
     /\ forall cloud : string,
          lookupGroup cloud grouped
          = match onCloud cloud twoModels with
            | [] => None
            | models => Some models
            end)
  /\ groupModelsByCloud (Some [("uuid-9", ownedByConstructor)]) = Throw.
Proof.
  split.
  - apply (proj1 (groupModelsByCloud_groups twoModels)).
    intros e i [<- | [<- | []]] Hinfo; cbn in Hinfo;
      [ discriminate | injection Hinfo as <-; reflexivity ].
  - apply (proj2 (groupModelsByCloud_groups [("uuid-9", ownedByConstructor)])
             ("uuid-9", ownedByConstructor)
             {| Info.ownerTag := "user-constructor@external";
                Info.cloudTag := "cloud-toString";
                Info.cloudRegion := "us-east-1";
                Info.cloudCredentialTag :=
                  "cloudcred-aws_constructor@external_prod" |});
      [ left; reflexivity | reflexivity | reflexivity ].
Defined.

(** Appending to the three arrays the elements of each status. *)
Definition extendBuckets {A : Type} (classOf : A -> string)
  (grouped : Buckets A) (xs : list A) : Buckets A :=
  {| blocked :=
       blocked grouped
       ++ List.filter (fun x => String.eqb (classOf x) "blocked") xs;
     alert :=
       alert grouped
       ++ List.filter (fun x => String.eqb (classOf x) "alert") xs;
     running :=
       running grouped
       ++ List.filter (fun x => String.eqb (classOf x) "running") xs |}.

Lemma extendBuckets_nil {A : Type} (classOf : A -> string)
  (grouped : Buckets A) :
  extendBuckets classOf grouped [] = grouped.
Proof.
  unfold extendBuckets. cbn [List.filter]. rewrite !app_nil_r.
  destruct grouped; reflexivity.
Qed.

Lemma extendBuckets_app {A : Type} (classOf : A -> string)
  (grouped : Buckets A) (xs ys : list A) :
  extendBuckets classOf (extendBuckets classOf grouped xs) ys
  = extendBuckets classOf grouped (xs ++ ys).
Proof.
  unfold extendBuckets. cbn [blocked alert running].
  rewrite !List.filter_app, !app_assoc. reflexivity.
Qed.

(** One loop of pushes, for a classifier that returns the three names. *)
Lemma pushTo_loop {A : Type} (classOf : A -> string) :
  (forall x : A,
      classOf x = "blocked" \/ classOf x = "alert" \/ classOf x = "running") ->
  forall (l : list (string * A)) (grouped : Buckets A),
    forEachM (fun g e => pushTo g (classOf (snd e)) (snd e)) l grouped
    = Normal (extendBuckets classOf grouped (List.map snd l)).
Proof.
  intros Hclass. induction l as [| e l IH]; intros grouped.
  - cbn [forEachM List.map]. rewrite extendBuckets_nil. reflexivity.
  - cbn [forEachM List.map]. unfold pushTo at 1.
    change (snd e :: List.map snd l) with ([snd e] ++ List.map snd l)%list.
    rewrite <- extendBuckets_app.
    destruct (Hclass (snd e)) as [H | [H | H]]; rewrite H;
      cbn [String.eqb Ascii.eqb Bool.eqb andb bind]; rewrite IH;
      do 2 f_equal; unfold extendBuckets; cbn [List.filter];
      rewrite H; cbn [String.eqb Ascii.eqb Bool.eqb andb];
      cbn [blocked alert running]; rewrite ?app_nil_r; reflexivity.
Qed.

(** A loop over containers whose body appends the items of each. *)
Lemma forEachM_flat {A C : Type} (classOf : C -> string)
  (f : Buckets C -> A -> Completion (Buckets C)) (items : A -> list C) :
  (forall grouped a, f grouped a
                     = Normal (extendBuckets classOf grouped (items a))) ->
  forall (l : list A) (grouped : Buckets C),
    forEachM f l grouped
    = Normal (extendBuckets classOf grouped (List.flat_map items l)).
Proof.
  intros Hf. induction l as [| a l IH]; intros grouped.
  - cbn [forEachM List.flat_map]. rewrite extendBuckets_nil. reflexivity.
  - cbn [forEachM List.flat_map]. rewrite Hf. cbn [bind].
    rewrite IH, extendBuckets_app. reflexivity.
Qed.

Lemma unit_class (unit : Unit) :
  groupStatus (getUnitStatusGroup unit) = "blocked"
  \/ groupStatus (getUnitStatusGroup unit) = "alert"
  \/ groupStatus (getUnitStatusGroup unit) = "running".
Proof. rewrite classify_unit. destruct (unitSeverity unit); cbn; auto. Qed.

Lemma application_class (app : Application) :
  groupStatus (getApplicationStatusGroup app) = "blocked"
  \/ groupStatus (getApplicationStatusGroup app) = "alert"
  \/ groupStatus (getApplicationStatusGroup app) = "running".
Proof.
  rewrite classify_application. destruct (applicationSeverity app); cbn; auto.
Qed.

(** Three filters by three statuses that cover every element. *)
Lemma three_filters_length {A : Type} (classOf : A -> string) :
  (forall x : A,
      classOf x = "blocked" \/ classOf x = "alert" \/ classOf x = "running") ->
  forall xs : list A,
    List.length (List.filter (fun x => String.eqb (classOf x) "blocked") xs)
    + List.length (List.filter (fun x => String.eqb (classOf x) "alert") xs)
    + List.length (List.filter (fun x => String.eqb (classOf x) "running") xs)
    = List.length xs.
Proof.
  intros Hclass. induction xs as [| x xs IH]; [ reflexivity | ].
  cbn [List.filter].
  destruct (Hclass x) as [H | [H | H]]; rewrite H;
    cbn [String.eqb Ascii.eqb Bool.eqb andb List.length]; lia.
Qed.

(** X8. [groupUnitsByStatus] never throws: its three arrays hold, in loop
    order, the units of all applications of all models whose status group
    is "blocked", "alert" and "running", and together as many units as the
    models have. *)
Theorem groupUnitsByStatus_partition (modelData : ModelDataStore) :
  exists grouped : Buckets Unit,
    groupUnitsByStatus modelData = Normal grouped
    /\ blocked grouped
       = List.filter (unitIs Blocked) (allUnits (inputModels modelData))
    /\ alert grouped
       = List.filter (unitIs Alert) (allUnits (inputModels modelData))
    /\ running grouped
       = List.filter (unitIs Running) (allUnits (inputModels modelData))
    /\ List.length (blocked grouped) + List.length (alert grouped)
       + List.length (running grouped)
       = List.length (allUnits (inputModels modelData)).
Proof.
  set (classOf := fun unit => groupStatus (getUnitStatusGroup unit)).
  assert (Happ : forall grouped entry,
    unitsOfApplication grouped entry
    = Normal (extendBuckets classOf grouped (List.map snd (units (snd entry))))).
  { intros grouped entry. unfold unitsOfApplication.
    apply (pushTo_loop classOf unit_class). }
  assert (Hmodel : forall grouped entry,
    unitsOfModel grouped entry
    = Normal
        (extendBuckets classOf grouped
           (List.flat_map (fun e => List.map snd (units (snd e)))
              (applications (snd entry))))).
  { intros grouped entry. unfold unitsOfModel.
    apply (forEachM_flat classOf _ _ Happ). }
  assert (Hall : forall entries,
    List.flat_map
      (fun entry =>
         List.flat_map (fun e => List.map snd (units (snd e)))
           (applications (snd entry))) entries
    = allUnits entries).
  { intros entries. unfold allUnits, allApplications.
    induction entries as [| entry entries IH]; [ reflexivity | ].
    cbn [List.flat_map]. rewrite List.flat_map_app, IH. f_equal.
    induction (applications (snd entry)) as [| e apps IHa]; [ reflexivity | ].
    cbn [List.flat_map List.map]. rewrite IHa. reflexivity. }
  exists (extendBuckets classOf
            {| blocked := []; alert := []; running := [] |}
            (allUnits (inputModels modelData))).
  split.
  { destruct modelData as [entries |]; [ | reflexivity ].
    unfold groupUnitsByStatus.
    rewrite (forEachM_flat classOf _ _ Hmodel), Hall. reflexivity. }
  unfold extendBuckets. cbn [blocked alert running app].
  repeat split. apply (three_filters_length classOf unit_class).
Qed.

(** X9. [groupApplicationsByStatus] never throws: its three arrays hold,
    in loop order, the applications of all models whose status group is
    "blocked", "alert" and "running", and together as many applications as
    the models have. *)
Theorem groupApplicationsByStatus_partition (modelData : ModelDataStore) :
  exists grouped : Buckets Application,
    groupApplicationsByStatus modelData = Normal grouped
    /\ blocked grouped
       = List.filter (applicationIs Blocked)
           (allApplications (inputModels modelData))
    /\ alert grouped
       = List.filter (applicationIs Alert)
           (allApplications (inputModels modelData))
    /\ running grouped
       = List.filter (applicationIs Running)
           (allApplications (inputModels modelData))
    /\ List.length (blocked grouped) + List.length (alert grouped)
       + List.length (running grouped)
       = List.length (allApplications (inputModels modelData)).
Proof.
  set (classOf := fun app => groupStatus (getApplicationStatusGroup app)).
  assert (Hmodel : forall grouped entry,
    applicationsOfModel grouped entry
    = Normal
        (extendBuckets classOf grouped
           (List.map snd (applications (snd entry))))).
  { intros grouped entry. unfold applicationsOfModel.
    apply (pushTo_loop classOf application_class). }
  exists (extendBuckets classOf
            {| blocked := []; alert := []; running := [] |}
            (allApplications (inputModels modelData))).
  split.
  { destruct modelData as [entries |]; [ | reflexivity ].
    unfold groupApplicationsByStatus.
    rewrite (forEachM_flat classOf _ _ Hmodel). reflexivity. }
  unfold extendBuckets. cbn [blocked alert running app].
  repeat split. apply (three_filters_length classOf application_class).
Qed.

End GroupingFacts.

(** ** The rollup of a model and the status of its entities *)

Section RollupBounds.

Import Selectors.

Lemma maximum_upper (s : Severity) (l : list Severity) :
  In s l -> severityMax s (maximum l) = maximum l.
Proof.
  induction l as [| a l IH]; intros Hin; [ destruct Hin | ].
  rewrite maximum_cons. destruct Hin as [-> | Hin].
  - destruct s, (maximum l); reflexivity.
  - specialize (IH Hin). destruct s, a, (maximum l); cbn in IH |- *;
      congruence.
Qed.

Lemma application_severity_In (m : ModelData) (appName : string)
  (app : Application) :
  In (appName, app) (applications m) ->
  In (applicationSeverity app) (entitySeverities m).
Proof.
  intros Hin. unfold entitySeverities. apply List.in_flat_map.
  exists (appName, app). split; [ exact Hin | left; reflexivity ].
Qed.

Lemma unit_severity_In (m : ModelData) (appName unitId : string)
  (app : Application) (unit : Unit) :
  In (appName, app) (applications m) ->
  In (unitId, unit) (units app) ->
  In (unitSeverity unit) (entitySeverities m).
Proof.
  intros Happ Hunit. unfold entitySeverities. apply List.in_flat_map.
  exists (appName, app). split; [ exact Happ | right ].
  unfold unitSeverities. cbn [snd].
  change (unitSeverity unit) with ((fun e => unitSeverity (snd e)) (unitId, unit)).
  apply List.in_map, Hunit.
Qed.

(** The model grouping, as the three filters of the input. *)
Lemma groupModelsByStatus_buckets (entries : list (string * ModelData)) :
  groupModelsByStatus (Some entries)
  = Normal {| Grouped.blocked := bucket "blocked" entries;
              Grouped.alert := bucket "alert" entries;
              Grouped.running := bucket "running" entries |}.
Proof. unfold groupModelsByStatus. rewrite group_loop. reflexivity. Qed.

(** X10. A model with a blocked application or a lost unit is always
    grouped as blocked, and a model with an application of unknown status
    or an allocating unit is never grouped as running. *)
Theorem entity_status_bounds_model (entries : list (string * ModelData))
  (uuid appName : string) (m : ModelData) (app : Application) :
  In (uuid, m) entries ->
  In (appName, app) (applications m) ->
  exists grouped : Grouped.t,
    groupModelsByStatus (Some entries) = Normal grouped
    /\ ((status (appStatus app) = "blocked"
         \/ (exists (unitId : string) (unit : Unit),
               In (unitId, unit) (units app)
               /\ status (agentStatus unit) = "lost")) ->
        In m (Grouped.blocked grouped)
        /\ ~ In m (Grouped.alert grouped)
        /\ ~ In m (Grouped.running grouped))
    /\ ((status (appStatus app) = "unknown"
         \/ (exists (unitId : string) (unit : Unit),
               In (unitId, unit) (units app)
               /\ status (agentStatus unit) = "allocating")) ->
        ~ In m (Grouped.running grouped)).
Proof.
  intros Hm Happ. eexists. split; [ apply groupModelsByStatus_buckets | ].
  cbn [Grouped.blocked Grouped.alert Grouped.running].
  rewrite !bucket_In, rollup_maximum.
  assert (Hin : In m (List.map snd entries)).
  { change m with (snd (uuid, m)). apply List.in_map, Hm. }
  split.
  - intros Hblocked.
    assert (Hsev : In Blocked (entitySeverities m)).
    { destruct Hblocked as [Hs | (unitId & unit & Hunit & Hs)].
      - replace Blocked with (applicationSeverity app);
          [ exact (application_severity_In m appName app Happ) | ].
        unfold applicationSeverity. rewrite Hs. reflexivity.
      - replace Blocked with (unitSeverity unit);
          [ exact (unit_severity_In m _ _ _ _ Happ Hunit) | ].
        unfold unitSeverity. rewrite Hs. reflexivity. }
    apply maximum_upper in Hsev.
    destruct (maximum (entitySeverities m)); try discriminate.
    repeat split; [ exact Hin | intros [_ H]; discriminate H .. ].
  - intros Halert.
    assert (Hsev : In Alert (entitySeverities m)).
    { destruct Halert as [Hs | (unitId & unit & Hunit & Hs)].
      - replace Alert with (applicationSeverity app);
          [ exact (application_severity_In m appName app Happ) | ].
        unfold applicationSeverity. rewrite Hs. reflexivity.
      - replace Alert with (unitSeverity unit);
          [ exact (unit_severity_In m _ _ _ _ Happ Hunit) | ].
        unfold unitSeverity. rewrite Hs. reflexivity. }
    apply maximum_upper in Hsev.
    destruct (maximum (entitySeverities m)); try discriminate;
      intros [_ H]; discriminate H.
Qed.

(** The hypotheses of X10 hold for the model [lostThenIdle]. *)
Lemma entity_status_bounds_model_witness :
  exists grouped : Grouped.t,
    groupModelsByStatus (Some [("uuid-1", lostThenIdle)]) = Normal grouped
    /\ In lostThenIdle (Grouped.blocked grouped).
Proof.
  destruct (entity_status_bounds_model [("uuid-1", lostThenIdle)]
              "uuid-1" "db" lostThenIdle
              {| appStatus := {| status := "active"; info := "" |};
                 units :=
                   [("db/0",
                     {| agentStatus :=
                          {| status := "lost"; info := "agent lost" |} |});
                    ("db/1",
                     {| agentStatus :=
                          {| status := "idle"; info := "ready" |} |})] |})
    as (grouped & Hgroup & Hblocked & _);
    [ left; reflexivity | left; reflexivity | ].
  exists grouped. split; [ exact Hgroup | ].
  apply Hblocked. right.
  exists "db/0",
    {| agentStatus := {| status := "lost"; info := "agent lost" |} |}.
  split; [ left; reflexivity | reflexivity ].
Defined.

End RollupBounds.

(** ** What filtering keeps *)

Module FilterViews.

(** The four segments the [switch] of [filterModelData] knows. *)
Definition knownSegments : list string :=
  ["cloud"; "credential"; "region"; "owner"].

(** The segment of a filter: what stands before its first colon. *)
Definition segmentOf (filter : string) : string :=
  first (split ":" filter).

(** The cloud name the cloud segment compares: that of [data.model]. *)
Definition cloudOf (data : ModelData) : string :=
  extractCloudName (StatusModel.cloudTag (model data)).

(** The filters "cloud:<name>" for a list of cloud names. *)
Definition cloudFilters (clouds : list string) : list string :=
  List.map (fun cloud => "cloud:" ++ cloud) clouds.

End FilterViews.

Section FilterFacts.

Import Selectors FilterViews.

Lemma deleteKeys_sublist (keys : list string)
  (obj : list (string * ModelData)) :
  sublist (deleteKeys keys obj) obj.
Proof.
  unfold deleteKeys. induction obj as [| e obj IH]; [ constructor | ].
  cbn [List.filter]. destruct (negb _); constructor; exact IH.
Qed.

Lemma bucket_sublist (key : string) (r entries : list (string * ModelData)) :
  sublist r entries -> sublist (bucket key r) (bucket key entries).
Proof.
  intros H. induction H as [| e r entries _ IH | e r entries _ IH].
  - constructor.
  - rewrite !bucket_cons. destruct (String.eqb _ key);
      [ constructor | ]; exact IH.
  - rewrite bucket_cons. destruct (String.eqb _ key);
      [ constructor | ]; exact IH.
Qed.

(** The keys of the collected segments are segments of the filters. *)
Lemma pushValue_keys (segment : string) (v : option string) :
  forall (segs : Segments) (k : string) (vs : list (option string)),
    In (k, vs) (pushValue segment v segs) ->
    k = segment \/ exists vs', In (k, vs') segs.
Proof.
  induction segs as [| [k' vs'] segs IH]; intros k vs Hin.
  - destruct Hin as [[= <- _] | []]. left. reflexivity.
  - cbn [pushValue] in Hin.
    destruct (String.eqb_spec k' segment) as [-> | _].
    + destruct Hin as [[= <- _] | Hin]; [ left; reflexivity | ].
      right. exists vs. right. exact Hin.
    + destruct Hin as [[= <- <-] | Hin].
      * right. exists vs'. left. reflexivity.
      * destruct (IH _ _ Hin) as [-> | (vs'' & Hin')];
          [ left; reflexivity | ].
        right. exists vs''. right. exact Hin'.
Qed.

Lemma collect_keys (P : string -> Prop) :
  forall (fs : list string) (acc segs : Segments),
    (forall f, In f fs -> P (segmentOf f)) ->
    (forall k vs, In (k, vs) acc -> P k) ->
    forEachM collectCallback fs acc = Normal segs ->
    forall k vs, In (k, vs) segs -> P k.
Proof.
  induction fs as [| f fs IH]; intros acc segs Hfs Hacc Hloop k vs Hin.
  - injection Hloop as <-. exact (Hacc _ _ Hin).
  - cbn [forEachM] in Hloop. unfold collectCallback at 1 in Hloop.
    fold (segmentOf f) in Hloop.
    destruct (arrayIncludes objectPrototypeKeys (segmentOf f));
      [ discriminate | ].
    cbn [bind] in Hloop.
    refine (IH _ _ (fun g Hg => Hfs g (or_intror Hg)) _ Hloop k vs Hin).
    intros k' vs' Hin'.
    destruct (pushValue_keys _ _ _ _ _ Hin') as [-> | (vs'' & Hold)].
    + apply Hfs. left. reflexivity.
    + exact (Hacc _ _ Hold).
Qed.

Lemma collect_returns :
  forall (fs : list string) (acc : Segments),
    (forall f, In f fs ->
               arrayIncludes objectPrototypeKeys (segmentOf f) = false) ->
    exists segs : Segments, forEachM collectCallback fs acc = Normal segs.
Proof.
  induction fs as [| f fs IH]; intros acc Hfs; [ eexists; reflexivity | ].
  cbn [forEachM]. unfold collectCallback at 1. fold (segmentOf f).
  rewrite (Hfs f (or_introl eq_refl)). cbn [bind].
  apply IH. intros g Hg. apply Hfs. right. exact Hg.
Qed.

(** Segments the [switch] does not know rule nothing out. *)
Lemma verdict_unknown_segments (data : ModelData) :
  forall segs : Segments,
    (forall k vs, In (k, vs) segs -> ~ In k knownSegments) ->
    verdict segs data = Normal false.
Proof.
  unfold verdict.
  induction segs as [| [k vs] segs IH]; intros Hsegs; [ reflexivity | ].
  cbn [someM]. unfold segmentCallback at 1. cbn [fst snd].
  assert (Hk : ~ In k knownSegments) by (apply (Hsegs k vs); left; reflexivity).
  unfold knownSegments in Hk. cbn [In] in Hk.
  destruct (String.eqb_spec k "cloud") as [-> | _]; [ tauto | ].
  destruct (String.eqb_spec k "credential") as [-> | _]; [ tauto | ].
  destruct (String.eqb_spec k "region") as [-> | _]; [ tauto | ].
  destruct (String.eqb_spec k "owner") as [-> | _]; [ tauto | ].
  cbn [bind]. apply IH. intros k' vs' Hin. apply (Hsegs k' vs'). right.
  exact Hin.
Qed.

Lemma filter_result_sublist (filters : list string)
  (entries result : list (string * ModelData)) :
  filterModelData (Some filters) (Some entries) = Normal (Some result) ->
  sublist result entries.
Proof.
  unfold filterModelData.
  destruct (forEachM collectCallback filters []) as [segs |];
    [ | discriminate ].
  cbn [bind]. rewrite remove_loop.
  destruct (removedKeys segs entries) as [keys |]; [ | discriminate ].
  cbn [bind]. intros [= <-]. apply deleteKeys_sublist.
Qed.

(** X11. What [filterModelData] returns is a sublist of the store it was
    given: the entries it keeps, unchanged and in their order. Filters
    whose segment is none of cloud, credential, region and owner (and no
    name inherited from [Object.prototype]) remove nothing; so does the
    empty list of filters. *)
Theorem filterModelData_sublist :
  (forall (filters : list string)
      (entries result : list (string * ModelData)),
      filterModelData (Some filters) (Some entries) = Normal (Some result) ->
      sublist result entries)
  /\ (forall (filters : list string) (entries : list (string * ModelData)),
        (forall f, In f filters ->
                   ~ In (segmentOf f) knownSegments
                   /\ arrayIncludes objectPrototypeKeys (segmentOf f) = false) ->
        filterModelData (Some filters) (Some entries) = Normal (Some entries)).
Proof.
  split.
  - exact filter_result_sublist.
  - intros filters entries Hfs. unfold filterModelData.
    destruct (collect_returns filters [] (fun f Hf => proj2 (Hfs f Hf)))
      as (segs & Hsegs).
    rewrite Hsegs. cbn [bind]. rewrite remove_loop.
    rewrite removedKeys_none; [ cbn [bind]; rewrite deleteKeys_nil;
                                reflexivity | ].
    intros e _. apply verdict_unknown_segments.
    apply (collect_keys (fun k => ~ In k knownSegments) filters [] segs);
      [ intros f Hf; exact (proj1 (Hfs f Hf)) | intros k vs [] | exact Hsegs ].
Qed.

(** The hypotheses of X11 hold for the filters of [twoModels] used above
    and for a filter on an unknown segment. *)
Lemma filterModelData_sublist_witness :
  sublist [("uuid-1", withoutInfo)] twoModels
  /\ filterModelData (Some ["status:blocked"]) (Some twoModels)
     = Normal (Some twoModels).
Proof.
  destruct filterModelData_sublist as (Hsub & Hnone).
  split.
  - apply (Hsub ["owner:alice"; "credential:dev"; "cloud:aws"]). reflexivity.
  - apply Hnone. intros f [<- | []]. split; [ | reflexivity ].
    intros [H | [H | [H | [H | []]]]]; discriminate H.
Defined.

(** X12. Grouping after filtering never adds a model to a status group
    nor moves one to another group: each array of the grouping of the
    filtered store is a sublist of the same array of the grouping of the
    store. *)
Theorem filtered_groups_sublist (filters : list string)
  (entries result : list (string * ModelData)) :
  filterModelData (Some filters) (Some entries) = Normal (Some result) ->
  exists grouped filtered : Grouped.t,
    groupModelsByStatus (Some entries) = Normal grouped
    /\ groupModelsByStatus (Some result) = Normal filtered
    /\ sublist (Grouped.blocked filtered) (Grouped.blocked grouped)
    /\ sublist (Grouped.alert filtered) (Grouped.alert grouped)
    /\ sublist (Grouped.running filtered) (Grouped.running grouped).
Proof.
  intros Hfilter.
  pose proof (filter_result_sublist filters entries result Hfilter) as Hsub.
  do 2 eexists.
  split; [ apply groupModelsByStatus_buckets | ].
  split; [ apply groupModelsByStatus_buckets | ].
  cbn [Grouped.blocked Grouped.alert Grouped.running].
  repeat split; apply bucket_sublist, Hsub.
Qed.

(** The hypothesis of X12 holds for [twoModels]. *)
Lemma filtered_groups_sublist_witness :
  exists grouped filtered : Grouped.t,
    groupModelsByStatus (Some twoModels) = Normal grouped
    /\ groupModelsByStatus (Some [("uuid-1", withoutInfo)]) = Normal filtered
    /\ sublist (Grouped.blocked filtered) (Grouped.blocked grouped)
    /\ sublist (Grouped.alert filtered) (Grouped.alert grouped)
    /\ sublist (Grouped.running filtered) (Grouped.running grouped).
Proof.
  apply (filtered_groups_sublist
           ["owner:alice"; "credential:dev"; "cloud:aws"]).
  reflexivity.
Defined.

(** In a store with distinct keys the deletions are a filter. *)
Lemma deleteKeys_filter (segs : Segments) (entries : list (string * ModelData))
  (keys : list string) (ruledOut : ModelData -> bool) :
  List.NoDup (List.map fst entries) ->
  removedKeys segs entries = Normal keys ->
  (forall e, In e entries -> verdict segs (snd e) = Normal (ruledOut (snd e))) ->
  deleteKeys keys entries
  = List.filter (fun e => negb (ruledOut (snd e))) entries.
Proof.
  intros Hnd Hkeys Hverdict. unfold deleteKeys.
  apply List.filter_ext_in. intros [uuid data] Hin. cbn [fst snd]. f_equal.
  destruct (removedKeys_verdict _ _ _ Hkeys _ Hin) as (remove & Hv & Hk).
  pose proof (Hverdict _ Hin) as Hdata.
  cbn [fst snd] in Hv, Hk, Hdata.
  rewrite Hdata in Hv. injection Hv as Hv.
  destruct (arrayIncludes keys uuid) eqn:Hin_keys.
  - destruct (removedKeys_origin _ _ _ Hkeys _ Hin_keys)
      as (other & Hother & Hout).
    rewrite (unique_key _ _ _ _ Hnd Hother Hin) in Hout. congruence.
  - destruct (ruledOut data); [ | reflexivity ].
    subst remove. exact (Hk eq_refl).
Qed.

Lemma removedKeys_returns (segs : Segments) (ruledOut : ModelData -> bool) :
  forall entries : list (string * ModelData),
    (forall e, In e entries ->
               verdict segs (snd e) = Normal (ruledOut (snd e))) ->
    exists keys : list string, removedKeys segs entries = Normal keys.
Proof.
  induction entries as [| e entries IH]; intros H; [ eexists; reflexivity | ].
  cbn [removedKeys]. rewrite (H e (or_introl eq_refl)). cbn [bind].
  destruct IH as (keys & ->); [ intros e' He'; apply H; right; exact He' | ].
  eexists. reflexivity.
Qed.

Lemma split_cloud_filter (cloud : string) :
  includes ":" cloud = false -> split ":" ("cloud:" ++ cloud) = ["cloud"; cloud].
Proof.
  intros H. unfold split.
  change ("cloud:" ++ cloud) with ("cloud" ++ String ":" cloud).
  rewrite (splitFrom_char ":" "cloud" cloud eq_refl).
  rewrite (splitFrom_absent _ _ H). reflexivity.
Qed.

Lemma collect_cloud_filters :
  forall (clouds : list string) (values : list (option string)),
    (forall c, In c clouds -> includes ":" c = false) ->
    forEachM collectCallback (cloudFilters clouds) [("cloud", values)]
    = Normal [("cloud", (values ++ List.map Some clouds)%list)].
Proof.
  induction clouds as [| c clouds IH]; intros values Hclouds.
  - cbn. rewrite app_nil_r. reflexivity.
  - cbn [cloudFilters List.map forEachM]. unfold collectCallback at 1.
    rewrite (split_cloud_filter c (Hclouds c (or_introl eq_refl))).
    cbn [first List.hd nth_error].
    change (arrayIncludes objectPrototypeKeys "cloud") with false.
    cbn [bind pushValue]. rewrite String.eqb_refl.
    fold (cloudFilters clouds).
    rewrite IH by (intros c' Hc'; apply Hclouds; right; exact Hc').
    rewrite <- app_assoc. reflexivity.
Qed.

Lemma valuesInclude_Some (clouds : list string) (x : string) :
  valuesInclude (List.map Some clouds) (Some x) = arrayIncludes clouds x.
Proof.
  unfold valuesInclude, arrayIncludes.
  induction clouds as [| c clouds IH]; [ reflexivity | ].
  cbn [List.map List.existsb sameValue]. rewrite IH. reflexivity.
Qed.

(** X13. Cloud filters keep exactly the models on one of the named
    clouds: for a non-empty list of cloud names without colon and a store
    with distinct keys, filtering with the filters "cloud:<name>" returns
    the entries whose cloud name ([data.model.cloudTag] without "cloud-")
    is one of the names, with or without info record. *)
Theorem cloud_filters_keep_named_clouds (clouds : list string)
  (entries : list (string * ModelData)) :
  clouds <> [] ->
  (forall c, In c clouds -> includes ":" c = false) ->
  List.NoDup (List.map fst entries) ->
  filterModelData (Some (cloudFilters clouds)) (Some entries)
  = Normal
      (Some (List.filter (fun e => arrayIncludes clouds (cloudOf (snd e)))
               entries)).
Proof.
  intros Hne Hclouds Hnd. unfold filterModelData.
  assert (Hcollect : forEachM collectCallback (cloudFilters clouds) []
                     = Normal [("cloud", List.map Some clouds)]).
  { destruct clouds as [| c clouds]; [ congruence | ].
    cbn [cloudFilters List.map forEachM]. unfold collectCallback at 1.
    rewrite (split_cloud_filter c (Hclouds c (or_introl eq_refl))).
    cbn [first List.hd nth_error].
    change (arrayIncludes objectPrototypeKeys "cloud") with false.
    cbn [bind pushValue]. fold (cloudFilters clouds).
    rewrite collect_cloud_filters
      by (intros c' Hc'; apply Hclouds; right; exact Hc').
    reflexivity. }
  rewrite Hcollect. cbn [bind]. rewrite remove_loop.
  set (segs := [("cloud", List.map Some clouds)]).
  assert (Hverdict : forall e, In e entries ->
    verdict segs (snd e)
    = Normal (negb (arrayIncludes clouds (cloudOf (snd e))))).
  { intros e _. unfold verdict, segs. cbn [someM].
    unfold segmentCallback. cbn [fst snd String.eqb Ascii.eqb Bool.eqb andb].
    cbn [bind]. fold (cloudOf (snd e)). rewrite valuesInclude_Some.
    destruct (arrayIncludes clouds (cloudOf (snd e))); reflexivity. }
  destruct (removedKeys_returns segs
              (fun data => negb (arrayIncludes clouds (cloudOf data)))
              entries Hverdict) as (keys & Hkeys).
  rewrite Hkeys. cbn [bind].
  rewrite (deleteKeys_filter segs entries keys
             (fun data => negb (arrayIncludes clouds (cloudOf data)))
             Hnd Hkeys Hverdict).
  do 2 f_equal. apply List.filter_ext. intros e. apply negb_involutive.
Qed.

(** A store of three models on three clouds. *)
Definition threeClouds : list (string * ModelData) :=
  [("uuid-1", withoutInfo);
   ("uuid-2",
    {| model := {| StatusModel.cloudTag := "cloud-gcp";
                   StatusModel.region := "europe-west1" |};
       modelInfo := None;
       applications := [] |});
   ("uuid-3",
    {| model := {| StatusModel.cloudTag := "cloud-azure";
                   StatusModel.region := "westeurope" |};
       modelInfo := None;
       applications := [] |})].

(** The hypotheses of X13 hold for [threeClouds] and the clouds "aws" and
    "azure": the model on "gcp" is the one removed. *)
Lemma cloud_filters_keep_named_clouds_witness :
  filterModelData (Some ["cloud:aws"; "cloud:azure"]) (Some threeClouds)
  = Normal
      (Some (List.filter
               (fun e => arrayIncludes ["aws"; "azure"] (cloudOf (snd e)))
               threeClouds)).
Proof.
  apply (cloud_filters_keep_named_clouds ["aws"; "azure"] threeClouds).
  - discriminate.
  - intros c [<- | [<- | []]]; reflexivity.
  - repeat constructor; cbn; intuition discriminate.
Defined.

End FilterFacts.

(** ** Being logged in ([isLoggedIn]) and logging out *)

Module Session.

Section LoggedIn.

Variables (Connection BakeryRest StorageRest : Type).

(** [state.root.controllerConnection && state.root.bakery &&
    state.root.bakery.storage._store.localStorage.identity], read for its
    truthiness: the connection and the bakery are objects when present,
    the identity is a string, falsy when empty or absent. *)
Definition isLoggedIn (root : Root.State Connection BakeryRest StorageRest)
  : bool :=
  match Root.controllerConnection root with
  | Some _ =>
      match Root.bakery root with
      | Some b =>
          match macaroons b !! "identity" with
          | Some (String _ _) => true
          | _ => false
          end
      | None => false
      end
  | None => false
  end.

End LoggedIn.

Arguments isLoggedIn {Connection BakeryRest StorageRest} root.

End Session.

Section SessionFacts.

Import Root Session.

Context {Connection BakeryRest StorageRest : Type}.

(** X14. After the logOut action the user is not logged in, whatever the
    state held, and a second logOut returns the same state. *)
Theorem logOut_logs_out (state : State Connection BakeryRest StorageRest)
  (b : Bakery BakeryRest StorageRest) :
  bakery state = Some b ->
  exists state' : State Connection BakeryRest StorageRest,
    rootReducer state LogOut = Normal state'
    /\ isLoggedIn state' = false
    /\ rootReducer state' LogOut = Normal state'.
Proof.
  intros Hb. unfold rootReducer. rewrite Hb. eexists.
  split; [ reflexivity | ]. split.
  - unfold isLoggedIn, macaroons, deleteIdentity. cbn.
    rewrite lookup_delete_eq. destruct (controllerConnection state);
      reflexivity.
  - cbn. unfold deleteIdentity. cbn. rewrite delete_delete_eq. reflexivity.
Qed.

(** Storing a connection and a bakery that holds an identity logs in. *)
Lemma stored_identity_logs_in
  (state : State Connection BakeryRest StorageRest) (conn : Connection)
  (b : Bakery BakeryRest StorageRest) (c : ascii) (identity : string) :
  macaroons b !! "identity" = Some (String c identity) ->
  exists s1 s2 : State Connection BakeryRest StorageRest,
    rootReducer state (StoreBakery (Some b)) = Normal s1
    /\ rootReducer s1 (UpdateControllerConnection (Some conn)) = Normal s2
    /\ isLoggedIn s2 = true.
Proof.
  intros Hid. do 2 eexists. split; [ reflexivity | ].
  split; [ reflexivity | ].
  unfold isLoggedIn. cbn. rewrite Hid. reflexivity.
Qed.

End SessionFacts.

Section SessionExample.

Import Root Session.

(** The hypothesis of X14 holds for [loggedIn], where the user is logged
    in before the action. *)
Lemma logOut_logs_out_witness :
  isLoggedIn loggedIn = true
  /\ exists state' : State unit unit unit,
       rootReducer loggedIn LogOut = Normal state'
       /\ isLoggedIn state' = false
       /\ rootReducer state' LogOut = Normal state'.
Proof.
  split; [ reflexivity | ].
  apply (logOut_logs_out loggedIn loggedInBakery). reflexivity.
Defined.

End SessionExample.

(** ** The active filters of [FilterTags] *)

Module ActiveFilters.

(** [arr.splice(start, 1)] read for the array it leaves: the element at
    [start] is removed; a negative [start] counts from the end, and a
    [start] beyond the end removes nothing. *)
Definition spliceOne {A : Type} (start : Z) (arr : list A) : list A :=
  let len := Z.of_nat (List.length arr) in
  let from :=
    if (start <? 0)%Z then Z.max (len + start) 0 else Z.min start len in
  (List.firstn (Z.to_nat from) arr ++ List.skipn (S (Z.to_nat from)) arr)%list.

(** The state update of [addActiveFilter]. *)
Definition addActiveFilter (filter : string) (filters : list string)
  : list string :=
  let updatedFilters := filters in
  if negb (arrayIncludes updatedFilters filter)
  then (updatedFilters ++ [filter])%list
  else updatedFilters.

(** The state update of [removeActiveFilter]. *)
Definition removeActiveFilter (filter : string) (filters : list string)
  : list string :=
  let updatedFilters := filters in
  if arrayIncludes updatedFilters filter
  then
    let index := indexOf updatedFilters filter in
    spliceOne index updatedFilters
  else updatedFilters.

(** No value is listed twice for a filter type, and no type twice. *)
Definition tidy (filters : FilterTags.Filters) : Prop :=
  List.NoDup (List.map fst filters)
  /\ forall type values, In (type, values) filters -> List.NoDup values.

End ActiveFilters.

Section ActiveFiltersFacts.

Import ActiveFilters.

Lemma arrayIncludes_In (arr : list string) (x : string) :
  arrayIncludes arr x = true <-> In x arr.
Proof.
  unfold arrayIncludes. rewrite List.existsb_exists. split.
  - intros (y & Hin & Heq). apply String.eqb_eq in Heq as ->. exact Hin.
  - intros Hin. exists x. split; [ exact Hin | apply String.eqb_refl ].
Qed.

Lemma arrayIncludes_not_In (arr : list string) (x : string) :
  arrayIncludes arr x = false <-> ~ In x arr.
Proof.
  rewrite <- arrayIncludes_In. destruct (arrayIncludes arr x); split;
    congruence.
Qed.

(** The index of a value that stands after [pre], which is free of it. *)
Lemma indexOfFrom_first (x : string) (pre post : list string) :
  ~ In x pre ->
  forall i : Z,
    indexOfFrom x (pre ++ x :: post) i = (i + Z.of_nat (List.length pre))%Z.
Proof.
  induction pre as [| y pre IH]; intros Hpre i.
  - cbn [app indexOfFrom List.length]. rewrite String.eqb_refl. lia.
  - cbn [app indexOfFrom List.length].
    destruct (String.eqb_spec y x) as [-> | _].
    + exfalso. apply Hpre. left. reflexivity.
    + rewrite IH by (intros H; apply Hpre; right; exact H). lia.
Qed.

Lemma spliceOne_middle {A : Type} (pre post : list A) (x : A) :
  spliceOne (Z.of_nat (List.length pre)) (pre ++ x :: post) = (pre ++ post)%list.
Proof.
  unfold spliceOne. rewrite List.length_app. cbn [List.length].
  destruct (Z.ltb_spec (Z.of_nat (List.length pre)) 0); [ lia | ].
  rewrite Z.min_l by lia. rewrite Nat2Z.id.
  induction pre as [| y pre IH]; [ reflexivity | ].
  cbn [List.length app List.firstn List.skipn]. f_equal. apply IH. lia.
Qed.

(** Removing is removing the first occurrence. *)
Lemma removeActiveFilter_first (filter : string) (pre post : list string) :
  ~ In filter pre ->
  removeActiveFilter filter (pre ++ filter :: post) = (pre ++ post)%list.
Proof.
  intros Hpre. unfold removeActiveFilter.
  assert (Hin : arrayIncludes (pre ++ filter :: post) filter = true).
  { apply arrayIncludes_In, List.in_or_app. right. left. reflexivity. }
  rewrite Hin. unfold indexOf. rewrite (indexOfFrom_first _ _ _ Hpre).
  apply spliceOne_middle.
Qed.

(** X15. The active filters stay free of duplicates under
    [addActiveFilter] and [removeActiveFilter]; adding a filter makes it
    active, removing it from a list without duplicates makes it inactive
    and leaves the other filters, and removing a filter just added to a
    list that did not hold it gives the list back. *)
Theorem active_filters_updates (filter : string) (filters : list string) :
  (List.NoDup filters -> List.NoDup (addActiveFilter filter filters))
  /\ (List.NoDup filters -> List.NoDup (removeActiveFilter filter filters))
  /\ In filter (addActiveFilter filter filters)
  /\ (List.NoDup filters ->
      forall other : string,
        In other (removeActiveFilter filter filters)
        <-> In other filters /\ other <> filter)
  /\ (~ In filter filters ->
      removeActiveFilter filter (addActiveFilter filter filters) = filters).
Proof.
  assert (Hremove : List.NoDup filters ->
    List.NoDup (removeActiveFilter filter filters)
    /\ forall other, In other (removeActiveFilter filter filters)
                     <-> In other filters /\ other <> filter).
  { intros Hnd.
    destruct (arrayIncludes filters filter) eqn:Hin.
    - apply arrayIncludes_In, List.in_split in Hin as (pre & post & ->).
      apply List.NoDup_remove in Hnd as [Hnd Hnot].
      assert (Hpre : ~ In filter pre).
      { intros H. apply Hnot, List.in_or_app. left. exact H. }
      rewrite (removeActiveFilter_first _ _ _ Hpre).
      split; [ exact Hnd | ]. intros other.
      rewrite !List.in_app_iff. cbn [In]. split.
      + intros H. split; [ tauto | ]. intros ->. apply Hnot.
        apply List.in_or_app. exact H.
      + intros [[H | [H | H]] Hne]; [ tauto | congruence | tauto ].
    - unfold removeActiveFilter. rewrite Hin.
      split; [ exact Hnd | ]. intros other. split; [ | tauto ].
      intros H. split; [ exact H | ]. intros ->.
      apply arrayIncludes_not_In in Hin. contradiction. }
  split; [ | split; [ | split; [ | split ] ] ].
  - intros Hnd. unfold addActiveFilter.
    destruct (arrayIncludes filters filter) eqn:Hin; [ exact Hnd | ].
    apply arrayIncludes_not_In in Hin. cbn [negb].
    apply List.NoDup_app.
    + exact Hnd.
    + constructor; [ intros [] | constructor ].
    + intros x Hx [<- | []]. contradiction.
  - intros Hnd. exact (proj1 (Hremove Hnd)).
  - unfold addActiveFilter.
    destruct (arrayIncludes filters filter) eqn:Hin; cbn [negb].
    + apply arrayIncludes_In, Hin.
    + apply List.in_or_app. right. left. reflexivity.
  - intros Hnd. exact (proj2 (Hremove Hnd)).
  - intros Hnot. unfold addActiveFilter.
    rewrite (proj2 (arrayIncludes_not_In _ _) Hnot). cbn [negb].
    rewrite (removeActiveFilter_first _ _ _ Hnot). apply app_nil_r.
Qed.

(** The hypotheses of X15 hold for a list of two active filters. *)
Lemma active_filters_updates_witness :
  List.NoDup (addActiveFilter "owner: bob" ["cloud: aws"; "region: eu"])
  /\ List.NoDup (removeActiveFilter "cloud: aws" ["cloud: aws"; "region: eu"])
  /\ removeActiveFilter "owner: bob"
       (addActiveFilter "owner: bob" ["cloud: aws"; "region: eu"])
     = ["cloud: aws"; "region: eu"].
Proof.
  assert (Hnd : List.NoDup ["cloud: aws"; "region: eu"]).
  { repeat constructor; cbn; intuition discriminate. }
  split; [ | split ].
  - apply (proj1 (active_filters_updates "owner: bob" _)), Hnd.
  - apply (proj1 (proj2 (active_filters_updates "cloud: aws" _))), Hnd.
  - apply (proj2 (proj2 (proj2 (proj2
             (active_filters_updates "owner: bob"
                ["cloud: aws"; "region: eu"]))))).
    cbn. intuition discriminate.
Defined.

End ActiveFiltersFacts.

Section AvailableFiltersFacts.

Import ActiveFilters FilterTags.

Lemma sameValue_eq (x y : option string) : sameValue x y = true <-> x = y.
Proof.
  destruct x as [a |], y as [b |]; cbn [sameValue];
    [ rewrite String.eqb_eq | | | ]; split; congruence.
Qed.

Lemma valuesInclude_not_In (values : list (option string))
  (v : option string) :
  valuesInclude values v = false -> ~ In v values.
Proof.
  unfold valuesInclude. intros H Hin.
  assert (Htrue : List.existsb (sameValue v) values = true).
  { apply List.existsb_exists. exists v.
    split; [ exact Hin | apply sameValue_eq; reflexivity ]. }
  congruence.
Qed.

Lemma addFilter_keys (type : string) (value : option string) :
  forall filters : Filters,
    List.map fst (addFilter type value filters)
    = if arrayIncludes (List.map fst filters) type
      then List.map fst filters
      else (List.map fst filters ++ [type])%list.
Proof.
  unfold arrayIncludes.
  induction filters as [| [k vs] filters IH]; [ reflexivity | ].
  cbn [addFilter List.map fst List.existsb].
  rewrite (String.eqb_sym type k).
  destruct (String.eqb k type); cbn [orb List.map fst]; [ reflexivity | ].
  rewrite IH. destruct (List.existsb _ _); reflexivity.
Qed.

Lemma addFilter_values (type : string) (value : option string) :
  forall (filters : Filters) (k : string) (vs : list (option string)),
    In (k, vs) (addFilter type value filters) ->
    In (k, vs) filters
    \/ vs = [value]
    \/ exists old : list (option string),
         In (k, old) filters /\ ~ In value old /\ vs = (old ++ [value])%list.
Proof.
  induction filters as [| [k' vs'] filters IH]; intros k vs Hin.
  - destruct Hin as [[= _ <-] | []]. right. left. reflexivity.
  - cbn [addFilter] in Hin. destruct (String.eqb k' type).
    + destruct Hin as [[= <- <-] | Hin]; [ | left; right; exact Hin ].
      destruct (valuesInclude vs' value) eqn:Hinc;
        [ left; left; reflexivity | ].
      right. right. exists vs'.
      split; [ left; reflexivity | ].
      split; [ apply valuesInclude_not_In, Hinc | reflexivity ].
    + destruct Hin as [[= <- <-] | Hin]; [ left; left; reflexivity | ].
      destruct (IH _ _ Hin) as [H | [H | (old & Hold & Hnot & Heq)]].
      * left. right. exact H.
      * right. left. exact H.
      * right. right. exists old. split; [ right; exact Hold | ].
        split; assumption.
Qed.

Lemma addFilter_tidy (type : string) (value : option string)
  (filters : Filters) :
  tidy filters -> tidy (addFilter type value filters).
Proof.
  intros [Hkeys Hvalues]. split.
  - rewrite addFilter_keys.
    destruct (arrayIncludes (List.map fst filters) type) eqn:Hin;
      [ exact Hkeys | ].
    apply arrayIncludes_not_In in Hin. apply List.NoDup_app.
    + exact Hkeys.
    + constructor; [ intros [] | constructor ].
    + intros x Hx [<- | []]. contradiction.
  - intros k vs Hin.
    destruct (addFilter_values _ _ _ _ _ Hin)
      as [H | [-> | (old & Hold & Hnot & ->)]].
    + exact (Hvalues _ _ H).
    + constructor; [ intros [] | constructor ].
    + apply List.NoDup_app.
      * exact (Hvalues _ _ Hold).
      * constructor; [ intros [] | constructor ].
      * intros x Hx [<- | []]. contradiction.
Qed.

Lemma addFilter_types (known : list string) (type : string)
  (value : option string) (filters : Filters) :
  In type known ->
  (forall k, In k (List.map fst filters) -> In k known) ->
  forall k, In k (List.map fst (addFilter type value filters)) -> In k known.
Proof.
  intros Htype Hold k. rewrite addFilter_keys.
  destruct (arrayIncludes _ _); [ apply Hold | ].
  intros Hin. apply List.in_app_or in Hin as [Hin | [<- | []]];
    [ apply Hold, Hin | exact Htype ].
Qed.

(** The loop keeps the filters tidy and adds only the four types. *)
Lemma availableFilters_loop (models : list ModelData) :
  forall acc filters : Filters,
    tidy acc ->
    (forall k, In k (List.map fst acc) -> In k FilterViews.knownSegments) ->
    forEachM modelCallback models acc = Normal filters ->
    tidy filters
    /\ forall k, In k (List.map fst filters) -> In k FilterViews.knownSegments.
Proof.
  induction models as [| m models IH]; intros acc filters Htidy Htypes Hloop.
  - injection Hloop as <-. split; assumption.
  - cbn [forEachM] in Hloop. unfold modelCallback at 1 in Hloop.
    destruct (modelInfo m) as [i |]; [ | exact (IH _ _ Htidy Htypes Hloop) ].
    destruct (extractCredentialName (Info.cloudCredentialTag i))
      as [credential |]; [ | discriminate ].
    cbn [bind] in Hloop. refine (IH _ _ _ _ Hloop).
    + repeat apply addFilter_tidy. exact Htidy.
    + unfold FilterViews.knownSegments in *.
      repeat (apply addFilter_types; [ cbn; tauto | ]). exact Htypes.
Qed.

Lemma availableFilters_skip (models : list ModelData) :
  forall acc : Filters,
    forEachM modelCallback models acc
    = forEachM modelCallback
        (List.filter
           (fun m => match modelInfo m with Some _ => true | None => false end)
           models)
        acc.
Proof.
  induction models as [| m models IH]; intros acc; [ reflexivity | ].
  cbn [List.filter]. destruct (modelInfo m) as [i |] eqn:Hinfo.
  - cbn [forEachM].
    destruct (modelCallback acc m); cbn [bind]; [ apply IH | reflexivity ].
  - cbn [forEachM]. unfold modelCallback at 1. rewrite Hinfo.
    cbn [bind]. apply IH.
Qed.

(** X16. The filters [FilterTags] offers: when the collection returns,
    its types are among cloud, region, owner and credential, no type is
    listed twice and no value twice under a type; models without info
    record add nothing (the collection over a store is that over its
    models with info). *)
Theorem availableFilters_tidy (modelData : list (string * ModelData)) :
  (forall filters : Filters,
      availableFilters modelData = Normal filters ->
      tidy filters
      /\ forall k, In k (List.map fst filters)
                   -> In k FilterViews.knownSegments)
  /\ availableFilters modelData
     = availableFilters
         (List.filter
            (fun e =>
               match modelInfo (snd e) with Some _ => true | None => false end)
            modelData).
Proof.
  split.
  - intros filters H. unfold availableFilters in H.
    refine (availableFilters_loop _ [] filters _ _ H).
    + split; [ constructor | intros k vs [] ].
    + intros k [].
  - unfold availableFilters. rewrite availableFilters_skip. f_equal.
    induction modelData as [| e modelData IH]; [ reflexivity | ].
    cbn [List.map List.filter]. destruct (modelInfo (snd e));
      cbn [List.map]; rewrite IH; reflexivity.
Qed.

(** The hypothesis of X16 holds for [twoModels]. *)
Lemma availableFilters_tidy_witness :
  tidy
    [("cloud", [Some "aws"]); ("region", [Some "us-east-1"]);
     ("owner", [Some "bob"]); ("credential", [Some "prod"])]
  /\ forall k,
       In k (List.map fst
               [("cloud", [Some "aws"]); ("region", [Some "us-east-1"]);
                ("owner", [Some "bob"]); ("credential", [Some "prod"])])
       -> In k FilterViews.knownSegments.
Proof.
  apply (proj1 (availableFilters_tidy twoModels)). reflexivity.
Defined.

End AvailableFiltersFacts.

(** ** What a polling job writes, and when it settles *)

Module JobOutcome.

Section Settling.

Variables (FullStatus ModelInfo : Type).

(** Whether the job reaches its call of [done()]. *)
Fixpoint settles (w : Juju.World FullStatus ModelInfo) (clock : nat)
  (t : Juju.Task FullStatus ModelInfo) : bool :=
  match t with
  | Juju.Settled => true
  | Juju.Rejected => false
  | Juju.ContinuePolling _ _ k =>
      settles w clock (k (Juju.polling w clock))
  | Juju.AwaitModelStatus _ _ modelUUID k =>
      settles w (S clock) (k (Juju.statusOf w modelUUID))
  | Juju.AwaitModelInfo _ _ modelUUID k =>
      settles w (S clock) (k (Juju.infoOf w modelUUID))
  | Juju.Dispatch _ _ _ k => settles w clock k
  end.

End Settling.

Arguments settles {FullStatus ModelInfo} w clock t.

End JobOutcome.

Section JobOutcomeFacts.

Import Juju JobOutcome.

Context {FullStatus ModelInfo : Type}.

(** X17. A job writes to the store only what the controller returned for
    its own model, and only if polling was enabled when it started: a
    write is that of the fetched status, or that of the fetched info, the
    latter with polling enabled at the time of the write. *)
Theorem pollJob_writes_only_fetched (w : World FullStatus ModelInfo)
  (clock : nat) (modelUUID : string) (a : Action FullStatus ModelInfo)
  (enabled : bool) :
  In (Wrote a enabled) (run w clock (pollJob modelUUID)) ->
  polling w clock = true
  /\ ((exists st : FullStatus,
         a = UpdateModelStatus modelUUID st
         /\ statusOf w modelUUID = Some st)
      \/ (exists modelInfo : ModelInfo,
            a = UpdateModelInfo modelInfo
            /\ infoOf w modelUUID = Some modelInfo
            /\ enabled = true)).
Proof.
  rewrite pollJob_traces.
  destruct (polling w clock); cbn [In].
  - intros [H | [H | H]]; [ discriminate | discriminate | ].
    split; [ reflexivity | ].
    apply in_app_or in H as [H | H].
    + destruct (statusOf w modelUUID) as [st |]; [ | destruct H ].
      destruct H as [[= <- _] | []]. left. exists st. split; reflexivity.
    + destruct H as [H | H]; [ discriminate | ].
      destruct (infoOf w modelUUID) as [modelInfo |]; [ | destruct H ].
      destruct H as [H | H]; [ discriminate | ].
      destruct (polling w (S (S clock))); [ | destruct H ].
      destruct H as [[= <- <-] | []]. right. exists modelInfo.
      repeat split.
  - intros [H | []]. discriminate.
Qed.


End JobOutcomeFacts.

Section JobOutcomeExamples.

Import Juju JobOutcome.

(** A world in which polling stays enabled, the status fetch times out and
    the info fetch answers. *)
Definition statusTimesOut : World string string :=
  {| polling := fun _ => true;
     statusOf := fun _ => None;
     infoOf := fun _ => Some "model info" |}.

(** The hypothesis of X17 holds for the status write of
    [disabledDuringStatusFetch]. *)
Lemma pollJob_writes_only_fetched_witness :
  polling disabledDuringStatusFetch 0 = true
  /\ ((exists st : string,
         UpdateModelStatus (ModelInfo := string) "model-1" "full status"
         = UpdateModelStatus "model-1" st
         /\ statusOf disabledDuringStatusFetch "model-1" = Some st)
      \/ (exists modelInfo : string,
            UpdateModelStatus "model-1" "full status"
            = UpdateModelInfo modelInfo
            /\ infoOf disabledDuringStatusFetch "model-1" = Some modelInfo
            /\ false = true)).
Proof.
  apply (pollJob_writes_only_fetched disabledDuringStatusFetch 0 "model-1").
  right. right. left. reflexivity.
Defined.


End JobOutcomeExamples.

(** ** The hardware string of a machine ([splitParts]) *)

Module Hardware.

(** [Object.fromEntries(pairs)]: the pairs are set in order, a later one
    replaces an earlier one with the same key. A value is [None] when it
    is [undefined]. *)
Definition fromEntries (pairs : list (string * option string))
  : gmap string (option string) :=
  List.fold_left (fun obj pair => <[fst pair := snd pair]> obj) pairs ∅.

(** [hardware.split(" ").map(item => { const parts = item.split("=");
    return [parts[0], parts[1]]; })], made an object. *)
Definition splitParts (hardware : string) : gmap string (option string) :=
  fromEntries
    (List.map
       (fun item =>
          let parts := split "=" item in
          (first parts, nth_error parts 1))
       (split " " hardware)).

(** [items.join(sep)]. *)
Fixpoint joinWith (sep : string) (items : list string) : string :=
  match items with
  | [] => ""
  | [item] => item
  | item :: rest => item ++ sep ++ joinWith sep rest
  end.

(** The hardware string "k1=v1 k2=v2 ..." of a list of characteristics. *)
Definition hardwareString (parts : list (string * string)) : string :=
  joinWith " " (List.map (fun part => fst part ++ "=" ++ snd part) parts).

(** A word: a string with neither a space nor an equals sign. *)
Definition word (s : string) : Prop :=
  includes " " s = false /\ includes "=" s = false.

End Hardware.

Section HardwareFacts.

Import Hardware.

Lemma split_join_space :
  forall items : list string,
    items <> [] ->
    (forall item, In item items -> includes " " item = false) ->
    split " " (joinWith " " items) = items.
Proof.
  unfold split.
  induction items as [| item items IH]; intros Hne Hitems; [ congruence | ].
  destruct items as [| next items].
  - cbn [joinWith]. apply splitFrom_absent, Hitems. left. reflexivity.
  - change (joinWith " " (item :: next :: items))
      with (item ++ String " " (joinWith " " (next :: items))).
    rewrite splitFrom_char by (apply Hitems; left; reflexivity).
    rewrite IH; [ reflexivity | discriminate | ].
    intros it Hit. apply Hitems. right. exact Hit.
Qed.

Lemma split_part (k v : string) :
  word k -> word v ->
  includes " " (k ++ "=" ++ v) = false
  /\ split "=" (k ++ "=" ++ v) = [k; v].
Proof.
  intros [Hk Hk'] [Hv Hv']. split.
  - change (k ++ "=" ++ v) with (k ++ String "=" v).
    rewrite includes_char_append, includes_char_cons, Hk, Hv. reflexivity.
  - unfold split. change (k ++ "=" ++ v) with (k ++ String "=" v).
    rewrite (splitFrom_char "=" _ _ Hk'), (splitFrom_absent _ _ Hv').
    reflexivity.
Qed.

Lemma fold_insert_other (pairs : list (string * option string)) :
  forall (obj : gmap string (option string)) (k : string),
    ~ In k (List.map fst pairs) ->
    List.fold_left (fun o pair => <[fst pair := snd pair]> o) pairs obj !! k
    = obj !! k.
Proof.
  induction pairs as [| [k' v'] pairs IH]; intros obj k Hk; [ reflexivity | ].
  cbn [List.fold_left fst snd]. rewrite IH.
  - apply lookup_insert_ne. intros ->. apply Hk. left. reflexivity.
  - intros H. apply Hk. right. exact H.
Qed.

Lemma fold_insert_found (pairs : list (string * option string)) :
  forall (obj : gmap string (option string)) (k : string) (v : option string),
    List.NoDup (List.map fst pairs) ->
    In (k, v) pairs ->
    List.fold_left (fun o pair => <[fst pair := snd pair]> o) pairs obj !! k
    = Some v.
Proof.
  induction pairs as [| [k' v'] pairs IH]; intros obj k v Hnd Hin;
    [ destruct Hin | ].
  cbn [List.map fst] in Hnd. apply List.NoDup_cons_iff in Hnd as [Hk' Hnd].
  cbn [List.fold_left fst snd]. destruct Hin as [[= -> ->] | Hin].
  - rewrite (fold_insert_other _ _ _ Hk'). apply lookup_insert_eq.
  - apply IH; assumption.
Qed.

(** X19. [splitParts] reads a hardware string back: for a non-empty list
    of characteristics with distinct keys, whose keys and values hold
    neither a space nor an equals sign, the object built from
    "k1=v1 k2=v2 ..." has the value of every characteristic under its key
    and nothing under any other key. *)
Theorem splitParts_reads_hardware (parts : list (string * string)) :
  parts <> [] ->
  List.NoDup (List.map fst parts) ->
  (forall k v, In (k, v) parts -> word k /\ word v) ->
  (forall k v, In (k, v) parts ->
               splitParts (hardwareString parts) !! k = Some (Some v))
  /\ (forall k, ~ In k (List.map fst parts) ->
                splitParts (hardwareString parts) !! k = None).
Proof.
  intros Hne Hnd Hwords.
  assert (Hentries :
    List.map
      (fun item => (first (split "=" item), nth_error (split "=" item) 1))
      (split " " (hardwareString parts))
    = List.map (fun part => (fst part, Some (snd part))) parts).
  { unfold hardwareString. rewrite split_join_space.
    - rewrite List.map_map. apply List.map_ext_in. intros [k v] Hin.
      cbn [fst snd].
      destruct (Hwords k v Hin) as [Hk Hv].
      rewrite (proj2 (split_part k v Hk Hv)). reflexivity.
    - destruct parts; [ congruence | discriminate ].
    - intros item Hitem. apply List.in_map_iff in Hitem as ([k v] & <- & Hin).
      destruct (Hwords k v Hin) as [Hk Hv].
      exact (proj1 (split_part k v Hk Hv)). }
  assert (Hkeys :
    List.map fst (List.map (fun part => (fst part, Some (snd part))) parts)
    = List.map fst parts).
  { rewrite List.map_map. reflexivity. }
  unfold splitParts, fromEntries. rewrite Hentries. split.
  - intros k v Hin. apply fold_insert_found.
    + rewrite Hkeys. exact Hnd.
    + change (k, Some v)
        with ((fun part : string * string => (fst part, Some (snd part)))
                (k, v)).
      apply List.in_map, Hin.
  - intros k Hk. rewrite fold_insert_other; [ apply lookup_empty | ].
    rewrite Hkeys. exact Hk.
Qed.

(** The hypotheses of X19 hold for the hardware of a machine with an
    availability zone. *)
Lemma splitParts_reads_hardware_witness :
  splitParts "arch=amd64 cores=2 mem=4096M availability-zone=us-east-1a"
    !! "availability-zone"
  = Some (Some "us-east-1a").
Proof.
  apply (proj1 (splitParts_reads_hardware
                  [("arch", "amd64"); ("cores", "2"); ("mem", "4096M");
                   ("availability-zone", "us-east-1a")]
                  ltac:(discriminate)
                  ltac:(repeat constructor; cbn; intuition discriminate)
                  ltac:(intros k v [[= <- <-] | [[= <- <-] | [[= <- <-]
                          | [[= <- <-] | []]]]]; repeat split))).
  right. right. right. left. reflexivity.
Defined.

End HardwareFacts.

(** ** Machines by status ([getMachineStatusGroup], [groupMachinesByStatus]) *)

Module Machines.

Record Machine : Type := {
  agentStatus : DetailedStatus
}.

(** The model data as [groupMachinesByStatus] reads it: for each model,
    in enumeration order, its machines in enumeration order (none when
    the model has no [machines]). *)
Abbreviation MachineStore :=
  (option (list (string * list (string * Machine)))).

Definition getMachineStatusGroup (machine : Machine) : StatusGroup :=
  classify ["down"] ["pending"] (status (agentStatus machine)).

(** The inner [for .. in] loop of [groupMachinesByStatus]. *)
Definition machinesOfModel (grouped : Groupings.Buckets Machine)
  (entry : string * list (string * Machine))
  : Completion (Groupings.Buckets Machine) :=
  forEachM
    (fun grouped machineEntry =>
       let machine := snd machineEntry in
       Groupings.pushTo grouped (groupStatus (getMachineStatusGroup machine))
         machine)
    (snd entry) grouped.

Definition groupMachinesByStatus (modelData : MachineStore)
  : Completion (Groupings.Buckets Machine) :=
  let grouped :=
    {| Groupings.blocked := []; Groupings.alert := [];
       Groupings.running := [] |} in
  match modelData with
  | None => Normal grouped
  | Some entries => forEachM machinesOfModel entries grouped
  end.

(** All machines of the models, in loop order. *)
Definition allMachines (modelData : MachineStore) : list Machine :=
  match modelData with
  | None => []
  | Some entries => List.flat_map (fun e => List.map snd (snd e)) entries
  end.

(** The machines whose agent status is one of [statuses]. *)
Definition machinesWith (statuses : list string) (machines : list Machine)
  : list Machine :=
  List.filter
    (fun machine => arrayIncludes statuses (status (agentStatus machine)))
    machines.

(** The machines whose agent status is none of [statuses]. *)
Definition machinesWithout (statuses : list string) (machines : list Machine)
  : list Machine :=
  List.filter
    (fun machine =>
       negb (arrayIncludes statuses (status (agentStatus machine))))
    machines.

End Machines.

Section MachinesFacts.

Import Groupings Machines.

Lemma machine_class (machine : Machine) :
  groupStatus (getMachineStatusGroup machine)
  = if String.eqb (status (agentStatus machine)) "down" then "blocked"
    else if String.eqb (status (agentStatus machine)) "pending" then "alert"
    else "running".
Proof.
  unfold getMachineStatusGroup, classify, arrayIncludes.
  cbn [List.existsb].
  destruct (String.eqb_spec (status (agentStatus machine)) "down")
    as [-> | _]; [ reflexivity | ].
  destruct (String.eqb (status (agentStatus machine)) "pending");
    reflexivity.
Qed.

(** X20. [groupMachinesByStatus] never throws: its arrays hold, in loop
    order, the machines of all models whose agent is "down" (blocked),
    "pending" (alert), and anything else (running), and together as many
    machines as the models have. *)
Theorem groupMachinesByStatus_partition (modelData : MachineStore) :
  exists grouped : Buckets Machine,
    groupMachinesByStatus modelData = Normal grouped
    /\ blocked grouped = machinesWith ["down"] (allMachines modelData)
    /\ alert grouped = machinesWith ["pending"] (allMachines modelData)
    /\ running grouped
       = machinesWithout ["down"; "pending"] (allMachines modelData)
    /\ List.length (blocked grouped) + List.length (alert grouped)
       + List.length (running grouped)
       = List.length (allMachines modelData).
Proof.
  set (classOf := fun machine => groupStatus (getMachineStatusGroup machine)).
  assert (Hclass : forall machine,
    classOf machine = "blocked" \/ classOf machine = "alert"
    \/ classOf machine = "running").
  { intros machine. unfold classOf. rewrite machine_class.
    destruct (String.eqb _ "down"); [ auto | ].
    destruct (String.eqb _ "pending"); auto. }
  assert (Hmodel : forall grouped entry,
    machinesOfModel grouped entry
    = Normal (extendBuckets classOf grouped (List.map snd (snd entry)))).
  { intros grouped entry. unfold machinesOfModel.
    apply (pushTo_loop classOf Hclass). }
  exists (extendBuckets classOf
            {| blocked := []; alert := []; running := [] |}
            (allMachines modelData)).
  split.
  { destruct modelData as [entries |]; [ | reflexivity ].
    unfold groupMachinesByStatus.
    rewrite (forEachM_flat classOf _ _ Hmodel). reflexivity. }
  unfold extendBuckets. cbn [blocked alert running app].
  split; [ | split; [ | split ] ].
  - unfold machinesWith. apply List.filter_ext. intros machine.
    unfold classOf, arrayIncludes. rewrite machine_class.
    cbn [List.existsb].
    destruct (String.eqb _ "down"); [ reflexivity | ].
    destruct (String.eqb _ "pending"); reflexivity.
  - unfold machinesWith. apply List.filter_ext. intros machine.
    unfold classOf, arrayIncludes. rewrite machine_class.
    cbn [List.existsb].
    destruct (String.eqb_spec (status (agentStatus machine)) "down")
      as [-> | _]; [ reflexivity | ].
    destruct (String.eqb _ "pending"); reflexivity.
  - unfold machinesWithout. apply List.filter_ext. intros machine.
    unfold classOf, arrayIncludes. rewrite machine_class.
    cbn [List.existsb].
    destruct (String.eqb _ "down"); [ reflexivity | ].
    destruct (String.eqb _ "pending"); reflexivity.
  - apply (three_filters_length classOf Hclass).
Qed.

End MachinesFacts.

(** ** The icon of a charm ([generateIconPath]) *)

Module Icons.

(** [s.indexOf(pat)]: the position of the first occurrence, -1 without. *)
Fixpoint stringIndexOfFrom (pat s : string) (i : Z) : Z :=
  if String.prefix pat s then i
  else match s with
       | EmptyString => (-1)%Z
       | String _ rest => stringIndexOfFrom pat rest (i + 1)%Z
       end.

Definition stringIndexOf (s pat : string) : Z := stringIndexOfFrom pat s 0.

Definition generateIconPath (namespace : string) : string :=
  let namespace :=
    if (stringIndexOf namespace "cs:" =? 0)%Z
    then replace "cs:" "" namespace
    else namespace in
  "https://api.jujucharms.com/charmstore/v5/" ++ namespace ++ "/icon.svg".

End Icons.

Section IconsFacts.

Import Icons.

Lemma stringIndexOfFrom_positive (pat : string) :
  forall (s : string) (i : Z),
    String.prefix pat s = false ->
    (0 <= i)%Z ->
    (stringIndexOfFrom pat s i =? 0)%Z = false.
Proof.
  intros s i Hprefix Hi.
  assert (Hlater : forall (t : string) (j : Z),
            (0 < j)%Z -> stringIndexOfFrom pat t j <> 0%Z).
  { induction t as [| c t IH]; intros j Hj; cbn [stringIndexOfFrom].
    - destruct (String.prefix pat ""); lia.
    - destruct (String.prefix pat (String c t)); [ lia | apply IH; lia ]. }
  apply Z.eqb_neq. destruct s as [| c s]; cbn [stringIndexOfFrom];
    rewrite Hprefix; [ lia | apply Hlater; lia ].
Qed.

(** X21. [generateIconPath] drops the "cs:" a namespace starts with, once,
    and nothing else: the path of "cs:<rest>" holds <rest> as it is, and a
    namespace that does not start with "cs:" is kept whole, even if "cs:"
    occurs further in. *)
Theorem generateIconPath_strips_scheme :
  (forall rest : string,
      generateIconPath ("cs:" ++ rest)
      = "https://api.jujucharms.com/charmstore/v5/" ++ rest ++ "/icon.svg")
  /\ (forall namespace : string,
        String.prefix "cs:" namespace = false ->
        generateIconPath namespace
        = "https://api.jujucharms.com/charmstore/v5/" ++ namespace
          ++ "/icon.svg").
Proof.
  split.
  - intros rest. unfold generateIconPath, stringIndexOf.
    change ("cs:" ++ rest) with (String "c" (String "s" (String ":" rest))).
    cbn [stringIndexOfFrom].
    change (String "c" (String "s" (String ":" rest))) with ("cs:" ++ rest).
    rewrite prefix_append. cbn [Z.eqb].
    rewrite (replace_at_start "cs:" "" rest). reflexivity.
  - intros namespace H. unfold generateIconPath, stringIndexOf.
    rewrite (stringIndexOfFrom_positive _ _ _ H (Z.le_refl 0)). reflexivity.
Qed.

(** The hypothesis of X21 holds for a local charm. *)
Lemma generateIconPath_strips_scheme_witness :
  generateIconPath ("cs:" ++ "cs:mysql-58")
  = "https://api.jujucharms.com/charmstore/v5/" ++ "cs:mysql-58"
    ++ "/icon.svg"
  /\ generateIconPath "local:cs:mysql-58"
     = "https://api.jujucharms.com/charmstore/v5/" ++ "local:cs:mysql-58"
       ++ "/icon.svg".
Proof.
  destruct generateIconPath_strips_scheme as (Hscheme & Hplain).
  split; [ apply Hscheme | apply Hplain; reflexivity ].
Defined.

End IconsFacts.
